(** * The quiz store of src/App.js and its scoring function

    A shallow embedding of the zustand store [useQuizStore] (its seven state
    fields and its actions), of the helper [calculateAnalysis], and of the
    parts of the components that decide what reaches the store or what is
    shown of it: [handleSelectAnswer] and the option borders of
    [QuestionCard], the callback of [QuizTimer], [getStatusColor],
    [handleFileChange], the memo, the effect and [handleStartQuiz] of
    [HomePage], the effects and buttons of [QuizPage] and [ResultsPage].
    Rendering, the text sent to the generative service and the formatting
    of numbers are left out.

    Conventions of the embedding:
    - a JS number that holds an integer is a [Z]; the three places where the
      code computes with fractions ([0.25], [0.6], [1.2], a division) are
      written over the rationals [Q], so the arithmetic is exact, where a
      JS double rounds the quotient of [accuracy];
    - a value that is a string or empty is an [option]: [None] is [null],
      and a field left out of a record is read as [null] too, which the code
      tells apart from it nowhere but in a [===] against [null];
    - [set({...})] merges the given fields into the store: every action is a
      function from [Store] to [Store];
    - [Math.random] and [Date.now] are inputs of [startQuiz]. *)

From Stdlib Require Import List String ZArith QArith Qround Bool Lia Permutation.
Import ListNotations.

Local Open Scope string_scope.
Local Open Scope Z_scope.
Local Open Scope list_scope.

(** ** Data *)

(** One record of the imported JSON file. *)
Record Question := {
  id : string;
  question : string;
  options : list string;
  answer : string;
  category : option string;
  subCategory : option string;
  explanation : option string
}.

(** [{ ...q, userAnswer, showAnswer }]: a question of the running test. *)
Record SessionQuestion := {
  base : Question;
  userAnswer : option string;
  showAnswer : bool
}.

(** The values of [topicStats]: [{ correct, total }]. *)
Record TopicStat := { correct : Z; total : Z }.

(** [topicStats], a JS object used as a map from category to counters.
    [Object.entries] lists the keys in the order they were added, which the
    association list keeps, and it holds the object's own keys only.  (A key
    that is a canonical array index is listed first by JS; no theorem below
    depends on the order.) *)
Definition TopicStats := list (string * TopicStat).

(** An element of [topicAnalysis]: [{ topic, accuracy, ...stats }]. *)
Record TopicEntry := {
  te_topic : string;
  te_accuracy : Q;
  te_correct : Z;
  te_total : Z
}.

(** The object returned by [calculateAnalysis]. *)
Record Report := {
  score : Q;
  correctCount : Z;
  totalQuestions : Z;
  accuracy : Q;
  passed : bool;
  topicAnalysis : list TopicEntry;
  answeredQuestions : list SessionQuestion
}.

(** The state held by [useQuizStore]. *)
Record Store := {
  allQuestions : list Question;
  questions : list SessionQuestion;
  currentQuestionIndex : Z;
  isTestRunning : bool;
  startTime : Z;
  finalResults : option Report;
  testDurationMinutes : Z
}.

(** The argument of [startQuiz]: [{ type, value, count }]. *)
Record Config := {
  type : string;
  value : option string;
  count : Z
}.

(** ** JavaScript primitives used by the code *)

(** Truthiness of a value that is a string, [null] or [undefined]. *)
Definition truthy (v : option string) : bool :=
  match v with
  | Some s => negb (String.eqb s "")
  | None => false
  end.

(** [v || d] *)
Definition orElse (v : option string) (d : string) : string :=
  match v with
  | Some s => if String.eqb s "" then d else s
  | None => d
  end.

(** [field === v] for two values that are strings or [null]: equal strings
    are equal and [null === null] holds. *)
Definition strictEq (field v : option string) : bool :=
  match field, v with
  | Some a, Some b => String.eqb a b
  | None, None => true
  | _, _ => false
  end.

(** [l.slice(0, e)] *)
Definition slice0 {A : Type} (l : list A) (e : Z) : list A :=
  let len := Z.of_nat (List.length l) in
  let final := if e <? 0 then Z.max (len + e) 0 else Z.min e len in
  firstn (Z.to_nat final) l.

(** ** [topicStats] *)

(** [topicStats[k]] *)
Fixpoint getTopic (k : string) (m : TopicStats) : option TopicStat :=
  match m with
  | [] => None
  | (k', s) :: m' => if String.eqb k' k then Some s else getTopic k m'
  end.

(** [topicStats[k].f++], written as an update of the value stored at [k]. *)
Fixpoint alterTopic (f : TopicStat -> TopicStat) (k : string) (m : TopicStats)
  : TopicStats :=
  match m with
  | [] => []
  | (k', s) :: m' =>
      if String.eqb k' k then (k', f s) :: m' else (k', s) :: alterTopic f k m'
  end.

(** The names every object inherits from [Object.prototype]: for these
    [topicStats[k]] is an object or a function, hence truthy, although
    [topicStats] has no such key of its own. *)
Definition objectPrototypeKeys : list string :=
  [ "constructor"; "hasOwnProperty"; "isPrototypeOf"; "propertyIsEnumerable";
    "toLocaleString"; "toString"; "valueOf"; "__proto__";
    "__defineGetter__"; "__defineSetter__";
    "__lookupGetter__"; "__lookupSetter__" ].

Definition inherited (k : string) : bool :=
  existsb (String.eqb k) objectPrototypeKeys.

(** [if (!topicStats[k]) topicStats[k] = { correct: 0, total: 0 }]: nothing
    is added when [topicStats[k]] is truthy, be it a bucket of its own or
    an inherited value.  (The [++] that follow then fall on that inherited
    value and leave [topicStats] as it is, which [alterTopic] does for a
    key that is absent.) *)
Definition ensureTopic (k : string) (m : TopicStats) : TopicStats :=
  match getTopic k m with
  | Some _ => m
  | None =>
      if inherited k then m
      else m ++ [(k, {| correct := 0; total := 0 |})]
  end.

Definition incTotal (s : TopicStat) : TopicStat :=
  {| correct := correct s; total := total s + 1 |}.

Definition incCorrect (s : TopicStat) : TopicStat :=
  {| correct := correct s + 1; total := total s |}.

(** ** [calculateAnalysis] *)

(** The three variables the [forEach] loop updates. *)
Record Tally := {
  t_correctCount : Z;
  t_incorrectCount : Z;
  t_topicStats : TopicStats
}.

Definition tally0 : Tally :=
  {| t_correctCount := 0; t_incorrectCount := 0; t_topicStats := [] |}.

(** The body of [questions.forEach((q) => ...)]. *)
Definition visit (t : Tally) (q : SessionQuestion) : Tally :=
  let cat := orElse (category (base q)) "General" in
  let stats := ensureTopic cat (t_topicStats t) in
  if truthy (userAnswer q) then
    let stats := alterTopic incTotal cat stats in
    if strictEq (userAnswer q) (Some (answer (base q))) then
      {| t_correctCount := t_correctCount t + 1;
         t_incorrectCount := t_incorrectCount t;
         t_topicStats := alterTopic incCorrect cat stats |}
    else
      {| t_correctCount := t_correctCount t;
         t_incorrectCount := t_incorrectCount t + 1;
         t_topicStats := stats |}
  else
    {| t_correctCount := t_correctCount t;
       t_incorrectCount := t_incorrectCount t;
       t_topicStats := stats |}.

(** [Object.entries(topicStats).map(([topic, stats]) => ...)] *)
Definition topicEntry (kv : string * TopicStat) : TopicEntry :=
  let (topic, stats) := kv in
  {| te_topic := topic;
     te_accuracy :=
       if 0 <? total stats
       then (inject_Z (correct stats) / inject_Z (total stats) * 100)%Q
       else 0%Q;
     te_correct := correct stats;
     te_total := total stats |}.

Definition calculateAnalysis (qs : list SessionQuestion) : Report :=
  let totalQuestions := Z.of_nat (List.length qs) in
  let t := fold_left visit qs tally0 in
  let correctCount := t_correctCount t in
  let incorrectCount := t_incorrectCount t in
  let score := (inject_Z correctCount - inject_Z incorrectCount * 0.25)%Q in
  let accuracy :=
    if 0 <? totalQuestions
    then (inject_Z correctCount / inject_Z totalQuestions * 100)%Q
    else 0%Q in
  let passed :=
    if 0 <? totalQuestions
    then Qle_bool (inject_Z totalQuestions * 0.6)%Q score
    else false in
  {| score := score;
     correctCount := correctCount;
     totalQuestions := totalQuestions;
     accuracy := accuracy;
     passed := passed;
     topicAnalysis := map topicEntry (t_topicStats t);
     answeredQuestions := qs |}.

(** ** The store's actions *)

(** The state [create] starts from. *)
Definition initialStore : Store :=
  {| allQuestions := [];
     questions := [];
     currentQuestionIndex := 0;
     isTestRunning := false;
     startTime := 0;
     finalResults := None;
     testDurationMinutes := 0 |}.

Definition loadQuestions (qs : list Question) (st : Store) : Store :=
  {| allQuestions := qs;
     questions := questions st;
     currentQuestionIndex := currentQuestionIndex st;
     isTestRunning := isTestRunning st;
     startTime := startTime st;
     finalResults := finalResults st;
     testDurationMinutes := testDurationMinutes st |}.

(** [config.type === 'subject'] and [config.type === 'paper'] *)
Definition isSubject (config : Config) : bool := String.eqb (type config) "subject".
Definition isPaper (config : Config) : bool := String.eqb (type config) "paper".

(** [filteredQuestions] after the [if ... else if ...] of [startQuiz]. *)
Definition filterQuestions (config : Config) (bank : list Question) : list Question :=
  if isSubject config then
    filter (fun q => strictEq (category q) (value config)) bank
  else if isPaper config then
    filter (fun q => strictEq (subCategory q) (value config)) bank
  else bank.

(** [{ ...q, userAnswer: null, showAnswer: false }] *)
Definition freshQuestion (q : Question) : SessionQuestion :=
  {| base := q; userAnswer := None; showAnswer := false |}.

(** [Math.ceil(config.count * 1.2)] *)
Definition duration (config : Config) : Z :=
  Qceiling (inject_Z (count config) * 1.2)%Q.

(** [startQuiz].  [sortRandom] is what [.sort(() => 0.5 - Math.random())]
    returns on this call and [now] what [Date.now()] returns.  [sort] works
    in place: when no filter applies, [filteredQuestions] is the very array
    held in [allQuestions], which is therefore left in the shuffled order. *)
Definition startQuiz (sortRandom : list Question -> list Question) (now : Z)
    (config : Config) (st : Store) : Store :=
  let filteredQuestions := filterQuestions config (allQuestions st) in
  let shuffled := sortRandom filteredQuestions in
  let selectedQuestions := slice0 shuffled (count config) in
  {| allQuestions :=
       if isSubject config || isPaper config then allQuestions st else shuffled;
     questions := map freshQuestion selectedQuestions;
     currentQuestionIndex := 0;
     isTestRunning := true;
     startTime := now;
     finalResults := None;
     testDurationMinutes := duration config |}.

(** [set] with a new [questions] array, the other fields kept. *)
Definition setQuestions (qs : list SessionQuestion) (st : Store) : Store :=
  {| allQuestions := allQuestions st;
     questions := qs;
     currentQuestionIndex := currentQuestionIndex st;
     isTestRunning := isTestRunning st;
     startTime := startTime st;
     finalResults := finalResults st;
     testDurationMinutes := testDurationMinutes st |}.

Definition withAnswer (a : string) (q : SessionQuestion) : SessionQuestion :=
  {| base := base q; userAnswer := Some a; showAnswer := showAnswer q |}.

Definition withShown (q : SessionQuestion) : SessionQuestion :=
  {| base := base q; userAnswer := userAnswer q; showAnswer := true |}.

Definition selectAnswer (questionId : string) (a : string) (st : Store) : Store :=
  setQuestions
    (map (fun q => if String.eqb (id (base q)) questionId then withAnswer a q else q)
         (questions st))
    st.

Definition checkAnswer (questionId : string) (st : Store) : Store :=
  setQuestions
    (map (fun q => if String.eqb (id (base q)) questionId then withShown q else q)
         (questions st))
    st.

Definition navigateToQuestion (index : Z) (st : Store) : Store :=
  if (0 <=? index) && (index <? Z.of_nat (List.length (questions st))) then
    {| allQuestions := allQuestions st;
       questions := questions st;
       currentQuestionIndex := index;
       isTestRunning := isTestRunning st;
       startTime := startTime st;
       finalResults := finalResults st;
       testDurationMinutes := testDurationMinutes st |}
  else st.

Definition submitTest (st : Store) : Store :=
  let analysis := calculateAnalysis (questions st) in
  {| allQuestions := allQuestions st;
     questions := questions st;
     currentQuestionIndex := currentQuestionIndex st;
     isTestRunning := false;
     startTime := startTime st;
     finalResults := Some analysis;
     testDurationMinutes := testDurationMinutes st |}.

Definition reset (st : Store) : Store :=
  {| allQuestions := allQuestions st;
     questions := [];
     currentQuestionIndex := 0;
     isTestRunning := false;
     startTime := 0;
     finalResults := None;
     testDurationMinutes := 0 |}.

(** ** The handlers in front of the store *)

(** [handleSelectAnswer] of [QuestionCard]; [q] is the card's [question]
    prop. *)
Definition handleSelectAnswer (q : SessionQuestion) (option : string) (st : Store)
  : Store :=
  if truthy (userAnswer q) then st else selectAnswer (id (base q)) option st.

(** What [handleFileChange] is given: the chosen file, if any, its MIME type
    and what [JSON.parse] makes of its text. *)
Inductive Parsed :=
| ParseThrows
| NotAnArray
| AnArray (records : list Question).

Record File := { mimeType : string; content : Parsed }.

(** [handleFileChange]: the store and the value of the [error] state
    afterwards ([None] where [setError] is not called). *)
Definition handleFileChange (file : option File) (st : Store)
  : Store * option string :=
  match file with
  | Some f =>
      if String.eqb (mimeType f) "application/json" then
        match content f with
        | AnArray parsedQuestions =>
            if 0 <? Z.of_nat (List.length parsedQuestions)
            then (loadQuestions parsedQuestions st, Some "")
            else (st, Some "Invalid JSON format. Expected an array of questions.")
        | NotAnArray =>
            (st, Some "Invalid JSON format. Expected an array of questions.")
        | ParseThrows => (st, Some "Error parsing JSON file.")
        end
      else (st, Some "Please select a valid JSON file.")
  | None => (st, Some "Please select a valid JSON file.")
  end.

(** [maxQuestions] of [HomePage] for the configuration the page would pass
    to [startQuiz], and the [disabled] attribute of its start button. *)
Definition maxQuestions (config : Config) (st : Store) : Z :=
  Z.of_nat (List.length (filterQuestions config (allQuestions st))).

Definition startDisabled (config : Config) (st : Store) : bool :=
  (count config =? 0) || (maxQuestions config st =? 0).

(** ** The quantities the report is compared with *)

(** The bucket a question falls in: [q.category || 'General']. *)
Definition categoryOf (q : SessionQuestion) : string :=
  orElse (category (base q)) "General".

(** A question counts as answered when [q.userAnswer] is truthy. *)
Definition answered (q : SessionQuestion) : bool := truthy (userAnswer q).

Definition isCorrect (q : SessionQuestion) : bool :=
  answered q && strictEq (userAnswer q) (Some (answer (base q))).

Definition isIncorrect (q : SessionQuestion) : bool :=
  answered q && negb (strictEq (userAnswer q) (Some (answer (base q)))).

Definition inTopic (k : string) (q : SessionQuestion) : bool :=
  String.eqb (categoryOf q) k.

(** How many elements of [qs] satisfy [p]. *)
Definition countIf (p : SessionQuestion -> bool) (qs : list SessionQuestion) : Z :=
  Z.of_nat (List.length (filter p qs)).

Definition hasAnswer (q : SessionQuestion) : bool :=
  match userAnswer q with Some _ => true | None => false end.

Definition keys (m : TopicStats) : list string := map fst m.

Definition zeroStat : TopicStat := {| correct := 0; total := 0 |}.

(** The counters of bucket [k], zero when there is no such bucket. *)
Definition statAt (k : string) (m : TopicStats) : TopicStat :=
  match getTopic k m with
  | Some s => s
  | None => zeroStat
  end.

(** ** States, sample data and the notions used in the statements *)

(** A question with the options "A" and "B", the first being the answer. *)
Definition mkQuestion (i : string) (cat : option string) : Question :=
  {| id := i; question := "?"; options := ["A"; "B"]; answer := "A";
     category := cat; subCategory := Some "P1"; explanation := None |}.

Definition mkSession (i : string) (cat : option string) (ua : option string)
  : SessionQuestion :=
  {| base := mkQuestion i cat; userAnswer := ua; showAnswer := false |}.

(** Ten questions with six right, two wrong and two left open, as in the
    spec's example (all in one category). *)
Definition tenQuestions : list SessionQuestion :=
  [ mkSession "q1" (Some "Options") (Some "A");
    mkSession "q2" (Some "Options") (Some "A");
    mkSession "q3" (Some "Options") (Some "A");
    mkSession "q4" (Some "Options") (Some "A");
    mkSession "q5" (Some "Options") (Some "A");
    mkSession "q6" (Some "Options") (Some "A");
    mkSession "q7" (Some "Options") (Some "B");
    mkSession "q8" (Some "Options") (Some "B");
    mkSession "q9" (Some "Options") None;
    mkSession "q10" (Some "Options") None ].

(** Every state of the store is obtained from [initialStore] by its
    actions; each [startQuiz] draws its own permutation. *)
Inductive reachable : Store -> Prop :=
| reach_init : reachable initialStore
| reach_load qs st :
    reachable st -> reachable (loadQuestions qs st)
| reach_start sortRandom now config st :
    (forall l, Permutation l (sortRandom l)) ->
    reachable st -> reachable (startQuiz sortRandom now config st)
| reach_select questionId a st :
    reachable st -> reachable (selectAnswer questionId a st)
| reach_check questionId st :
    reachable st -> reachable (checkAnswer questionId st)
| reach_navigate index st :
    reachable st -> reachable (navigateToQuestion index st)
| reach_submit st :
    reachable st -> reachable (submitTest st)
| reach_reset st :
    reachable st -> reachable (reset st).

(** The position is 0 or points at a question. *)
Definition indexOk (st : Store) : Prop :=
  currentQuestionIndex st = 0 \/
  0 <= currentQuestionIndex st < Z.of_nat (List.length (questions st)).

(** A test of three questions under way, the second one on screen. *)
Definition bank3 : list Question :=
  [ mkQuestion "q1" (Some "Options"); mkQuestion "q2" (Some "Futures");
    mkQuestion "q3" None ].

Definition keepOrder (l : list Question) : list Question := l.

Definition running3 : Store :=
  navigateToQuestion 1
    (startQuiz keepOrder 1000 {| type := "all"; value := None; count := 3 |}
       (loadQuestions bank3 initialStore)).

(** The first question of [running3] answered "A". *)
Definition answeredA : Store := selectAnswer "q1" "A" running3.

(** A question whose first option is the empty string, in a running test. *)
Definition blankQuestion : Question :=
  {| id := "b1"; question := "?"; options := [""; "B"]; answer := "B";
     category := Some "Options"; subCategory := None; explanation := None |}.

Definition blankRunning : Store :=
  startQuiz keepOrder 1000 {| type := "all"; value := None; count := 1 |}
    (loadQuestions [blankQuestion] initialStore).


(** A bank in which exactly three questions belong to "Options". *)
Definition bank4 : list Question :=
  [ mkQuestion "q1" (Some "Options"); mkQuestion "q2" (Some "Futures");
    mkQuestion "q3" (Some "Options"); mkQuestion "q4" (Some "Options") ].


Definition noSwaps : Config :=
  {| type := "subject"; value := Some "Swaps"; count := 5 |}.

(** A record as the spec wants it: some options, the answer among them. *)
Definition wellFormed (q : Question) : Prop :=
  options q <> [] /\ In (answer q) (options q).

(** The inputs [handleFileChange] hands to [loadQuestions]: a JSON file
    whose text parses to an array with at least one element. *)
Definition accepted (file : option File) (qs : list Question) : Prop :=
  exists f, file = Some f /\ mimeType f = "application/json" /\
            content f = AnArray qs /\ qs <> [].

Definition noOptions : Question :=
  {| id := "x1"; question := "?"; options := []; answer := "A";
     category := Some "Options"; subCategory := None; explanation := None |}.

Definition jsonFile (qs : list Question) : option File :=
  Some {| mimeType := "application/json"; content := AnArray qs |}.


(** ** The components around the store *)

(** [questions[currentQuestionIndex]] of [QuizPage]; [undefined] is [None]. *)
Definition currentQuestion (st : Store) : option SessionQuestion :=
  if 0 <=? currentQuestionIndex st
  then nth_error (questions st) (Z.to_nat (currentQuestionIndex st))
  else None.

(** [QuizPage] renders the question card unless
    [!isTestRunning || !currentQuestion]. *)
Definition showsQuestion (st : Store) : bool :=
  isTestRunning st &&
  match currentQuestion st with Some _ => true | None => false end.

Definition handleNext (st : Store) : Store :=
  navigateToQuestion (currentQuestionIndex st + 1) st.

Definition handlePrev (st : Store) : Store :=
  navigateToQuestion (currentQuestionIndex st - 1) st.

(** The [disabled] attributes of the Previous and Next buttons. *)
Definition prevDisabled (st : Store) : bool := currentQuestionIndex st =? 0.

Definition nextDisabled (st : Store) : bool :=
  currentQuestionIndex st =? Z.of_nat (List.length (questions st)) - 1.

(** The [page] state of [App]. *)
Inductive Page := home | quiz | results.

Definition hasResults (st : Store) : bool :=
  match finalResults st with Some _ => true | None => false end.

(** The effect of [QuizPage]: the page shown once its two [navigate] calls
    have run, starting from [page]. *)
Definition quizPageEffect (st : Store) (page : Page) : Page :=
  let page := if negb (isTestRunning st) && negb (hasResults st) then home else page in
  if hasResults st then results else page.

(** The effect of [ResultsPage]. *)
Definition resultsPageEffect (st : Store) (page : Page) : Page :=
  if negb (hasResults st) then home else page.

(** The "Check Answer" button is rendered when [userAnswer && !showAnswer]. *)
Definition checkVisible (q : SessionQuestion) : bool :=
  truthy (userAnswer q) && negb (showAnswer q).

(** [getStatusColor] *)
Definition getStatusColor (q : SessionQuestion) : string :=
  if showAnswer q then
    if strictEq (userAnswer q) (Some (answer (base q)))
    then "bg-green-500 text-white" else "bg-red-500 text-white"
  else if truthy (userAnswer q) then "bg-blue-500 text-white"
  else "bg-gray-200 text-gray-700".

(** What one run of the interval callback of [QuizTimer] does: the store
    afterwards, the value given to [setTimeLeft], and whether the interval
    was cleared.  Times are in milliseconds, as [Date.now()] gives them. *)
Record Tick := { tickStore : Store; tickTimeLeft : Z; tickCleared : bool }.

Definition timerTick (now : Z) (st : Store) : Tick :=
  let elapsed := (now - startTime st) / 1000 in
  let remaining := testDurationMinutes st * 60 - elapsed in
  if remaining <=? 0
  then {| tickStore := submitTest st; tickTimeLeft := 0; tickCleared := true |}
  else {| tickStore := st; tickTimeLeft := remaining; tickCleared := false |}.

(** The interval exists only when [startTime] is truthy. *)
Definition timerArmed (st : Store) : bool := negb (startTime st =? 0).

(** [Math.floor(timeLeft / 60)] and [timeLeft % 60]. *)
Definition minutes (timeLeft : Z) : Z := timeLeft / 60.
Definition seconds (timeLeft : Z) : Z := Z.rem timeLeft 60.





(** The configuration [handleStartQuiz] builds from the state of
    [HomePage]; [selectedSubject] and [selectedPaper] are strings. *)
Definition homeConfig (quizType selectedSubject selectedPaper : string)
    (numQuestions : Z) : Config :=
  if String.eqb quizType "subject" then
    {| type := "subject"; value := Some selectedSubject; count := numQuestions |}
  else if String.eqb quizType "paper" then
    {| type := "paper"; value := Some selectedPaper; count := numQuestions |}
  else {| type := "all"; value := None; count := numQuestions |}.

(** The effect that keeps [numQuestions] within [maxQuestions]:
    [if (numQuestions > maxQuestions) setNumQuestions(maxQuestions || 1)]. *)
Definition clampNumQuestions (numQuestions maxQ : Z) : Z :=
  if maxQ <? numQuestions then (if maxQ =? 0 then 1 else maxQ)
  else numQuestions.

Definition handleStartQuiz (sortRandom : list Question -> list Question)
    (now : Z) (quizType selectedSubject selectedPaper : string)
    (numQuestions : Z) (st : Store) : Store :=
  startQuiz sortRandom now
    (homeConfig quizType selectedSubject selectedPaper numQuestions) st.

(** [handleGoHome] of [ResultsPage] ([navigate] aside). *)
Definition handleGoHome (st : Store) : Store := reset st.

(** ** What a user can do *)

(** One action on the quiz page or a file chosen meanwhile: an option
    clicked on the card on screen, "Check Answer" where it is rendered, a
    palette, Previous or Next button, "Submit Test" or the timer. *)
Inductive quizStep : Store -> Store -> Prop :=
| qs_file file st :
    quizStep st (fst (handleFileChange file st))
| qs_select q option st :
    currentQuestion st = Some q ->
    quizStep st (handleSelectAnswer q option st)
| qs_check q st :
    currentQuestion st = Some q -> checkVisible q = true ->
    quizStep st (checkAnswer (id (base q)) st)
| qs_navigate index st :
    quizStep st (navigateToQuestion index st)
| qs_submit st :
    quizStep st (submitTest st)
| qs_tick now st :
    quizStep st (tickStore (timerTick now st)).

(** Any number of such actions. *)
Inductive quizSteps : Store -> Store -> Prop :=
| qss_refl st : quizSteps st st
| qss_step st st' st'' : quizSteps st st' -> quizStep st' st'' -> quizSteps st st''.

(** The states the user interface can bring the store to.  The start button
    works when it is not disabled; the slider keeps [numQuestions >= 1]. *)
Inductive uiReachable : Store -> Prop :=
| ui_init : uiReachable initialStore
| ui_quiz st st' : uiReachable st -> quizStep st st' -> uiReachable st'
| ui_start sortRandom now quizType selectedSubject selectedPaper numQuestions st :
    (forall l, Permutation l (sortRandom l)) ->
    1 <= numQuestions ->
    startDisabled (homeConfig quizType selectedSubject selectedPaper numQuestions) st
      = false ->
    uiReachable st ->
    uiReachable (handleStartQuiz sortRandom now quizType selectedSubject
                   selectedPaper numQuestions st)
| ui_home st : uiReachable st -> uiReachable (handleGoHome st).

(** Questions with the same id carry the same answer and the same flag. *)
Definition synced (qs : list SessionQuestion) : Prop :=
  forall q1 q2, In q1 qs -> In q2 qs -> id (base q1) = id (base q2) ->
    userAnswer q1 = userAnswer q2 /\ showAnswer q1 = showAnswer q2.

(** Only answered questions are revealed. *)
Definition revealedAnswered (qs : list SessionQuestion) : Prop :=
  forall q, In q qs -> showAnswer q = true -> truthy (userAnswer q) = true.

(** The sum of a field of the entries of [topicAnalysis]. *)
Definition sumBy (f : TopicEntry -> Z) (es : list TopicEntry) : Z :=
  fold_right (fun e acc => f e + acc) 0 es.

(** ** Further notions used in the statements *)

(** A test that was submitted and has then been answered further. *)
Definition submittedThenAnswered : Store :=
  selectAnswer "q2" "B" (submitTest answeredA).

(** The sum of a counter over the buckets of [topicStats]. *)
Definition sumStat (f : TopicStat -> Z) (m : TopicStats) : Z :=
  fold_right (fun kv acc => f (snd kv) + acc) 0 m.

(** An id that no question of the samples carries. *)
Definition unknownId : string := "nowhere".

(** How a question may change while a test is being taken: the record
    stays, an answer once given stays, a revealed answer stays revealed. *)
Definition keeps (q q' : SessionQuestion) : Prop :=
  base q' = base q /\
  (answered q = true -> userAnswer q' = userAnswer q) /\
  (showAnswer q = true -> showAnswer q' = true).

(** [borderColor] of an option of [QuestionCard]. *)
Definition borderColor (q : SessionQuestion) (option : string) : string :=
  let isSelected := strictEq (userAnswer q) (Some option) in
  let isCorrectOption := String.eqb (answer (base q)) option in
  if showAnswer q then
    if isCorrectOption then "border-green-500 bg-green-50"
    else if isSelected then "border-red-500 bg-red-50"
    else "border-gray-300 hover:border-blue-400"
  else if isSelected then "border-blue-500 bg-blue-50"
  else "border-gray-300 hover:border-blue-400".

(** The counts in the words of the spec: a question counts when its
    [userAnswer] is not null, as right when [userAnswer == correctOption]
    and as wrong otherwise; the score is
    [correctCount - 0.25 * incorrectCount]. *)
Definition specCorrect (q : SessionQuestion) : bool :=
  hasAnswer q && strictEq (userAnswer q) (Some (answer (base q))).

Definition specIncorrect (q : SessionQuestion) : bool :=
  hasAnswer q && negb (strictEq (userAnswer q) (Some (answer (base q)))).

Definition specScore (qs : list SessionQuestion) : Q :=
  (inject_Z (countIf specCorrect qs) - 0.25 * inject_Z (countIf specIncorrect qs))%Q.

(** The test of [blankRunning] once the option "" has been chosen. *)
Definition emptyAnswered : list SessionQuestion :=
  [ withAnswer "" (freshQuestion blankQuestion) ].



(** A question whose category is not a name objects inherit, and a map
    without such keys. *)
Definition ordinary (q : SessionQuestion) : bool :=
  negb (inherited (categoryOf q)).

Definition ordinaryKeys (m : TopicStats) : Prop :=
  forall k, In k (keys m) -> inherited k = false.

(** ** Lemmas on [topicStats] *)

Lemma countIf_cons p q qs :
  countIf p (q :: qs) = (if p q then 1 else 0) + countIf p qs.
Proof.
  unfold countIf. simpl. destruct (p q); simpl List.length; lia.
Qed.

Lemma countIf_nonneg p qs : 0 <= countIf p qs.
Proof. unfold countIf. lia. Qed.

Lemma countIf_le_length p qs : countIf p qs <= Z.of_nat (List.length qs).
Proof.
  unfold countIf. pose proof (filter_length_le p qs). lia.
Qed.

Lemma getTopic_None k m : getTopic k m = None <-> ~ In k (keys m).
Proof.
  induction m as [|[k' s] m IH]; simpl.
  - tauto.
  - destruct (String.eqb_spec k' k) as [E|E].
    + split; [discriminate | intros H; exfalso; apply H; now left].
    + rewrite IH. tauto.
Qed.

Lemma getTopic_In k s m :
  NoDup (keys m) -> In (k, s) m -> getTopic k m = Some s.
Proof.
  induction m as [|[k' s'] m IH]; simpl; intros ND HIn.
  - contradiction.
  - inversion ND as [|? ? Hnotin ND']; subst.
    destruct HIn as [E|HIn].
    + inversion E; subst. now rewrite String.eqb_refl.
    + destruct (String.eqb_spec k' k) as [E|E].
      * subst. exfalso. apply Hnotin. change k with (fst (k, s)).
        now apply in_map.
      * now apply IH.
Qed.

Lemma getTopic_Some_In k s m : getTopic k m = Some s -> In (k, s) m.
Proof.
  induction m as [|[k' s'] m IH]; simpl; [discriminate|].
  destruct (String.eqb_spec k' k) as [E|E]; intros H.
  - inversion H; subst. now left.
  - right. now apply IH.
Qed.

Lemma keys_alterTopic f k m : keys (alterTopic f k m) = keys m.
Proof.
  induction m as [|[k' s] m IH]; simpl; [reflexivity|].
  destruct (String.eqb k' k); simpl; [reflexivity | now rewrite IH].
Qed.

Lemma getTopic_alterTopic f k k' m :
  getTopic k' (alterTopic f k m) =
  if String.eqb k k' then option_map f (getTopic k' m) else getTopic k' m.
Proof.
  induction m as [|[k0 s] m IH]; simpl.
  - now destruct (String.eqb k k').
  - destruct (String.eqb_spec k0 k) as [E0|E0]; simpl.
    + subst k0. destruct (String.eqb_spec k k'); reflexivity.
    + rewrite IH. destruct (String.eqb_spec k k') as [E|E];
        destruct (String.eqb_spec k0 k') as [E'|E']; try reflexivity.
      congruence.
Qed.

Lemma getTopic_app k m1 m2 :
  getTopic k (m1 ++ m2) =
  match getTopic k m1 with Some s => Some s | None => getTopic k m2 end.
Proof.
  induction m1 as [|[k' s] m1 IH]; simpl; [reflexivity|].
  now destruct (String.eqb k' k).
Qed.

Lemma statAt_ensureTopic k k' m : statAt k' (ensureTopic k m) = statAt k' m.
Proof.
  unfold statAt, ensureTopic.
  destruct (getTopic k m) eqn:Hk; [reflexivity|].
  destruct (inherited k); [reflexivity|].
  rewrite getTopic_app. destruct (getTopic k' m); [reflexivity|].
  simpl. now destruct (String.eqb k k').
Qed.

Lemma getTopic_ensureTopic_same k m :
  inherited k = false -> getTopic k (ensureTopic k m) <> None.
Proof.
  intros Hk'. unfold ensureTopic. rewrite Hk'.
  destruct (getTopic k m) eqn:Hk; [congruence|].
  rewrite getTopic_app, Hk. simpl. now rewrite String.eqb_refl.
Qed.

Lemma keys_ensureTopic k m :
  keys (ensureTopic k m) =
  keys m ++ (match getTopic k m with
             | Some _ => []
             | None => if inherited k then [] else [k]
             end).
Proof.
  unfold ensureTopic, keys. destruct (getTopic k m).
  - now rewrite app_nil_r.
  - destruct (inherited k); [now rewrite app_nil_r | now rewrite map_app].
Qed.

Lemma NoDup_keys_ensureTopic k m :
  NoDup (keys m) -> NoDup (keys (ensureTopic k m)).
Proof.
  intros ND. rewrite keys_ensureTopic.
  destruct (getTopic k m) eqn:Hk.
  - now rewrite app_nil_r.
  - destruct (inherited k); [now rewrite app_nil_r|].
    apply getTopic_None in Hk.
    apply NoDup_app; [assumption | repeat constructor; simpl; tauto |].
    intros x Hx [E|[]]. now subst.
Qed.

Lemma In_keys_ensureTopic k k' m :
  In k' (keys (ensureTopic k m)) <->
  In k' (keys m) \/ (k = k' /\ inherited k = false).
Proof.
  rewrite keys_ensureTopic, in_app_iff.
  destruct (getTopic k m) eqn:Hk; simpl.
  - split; [tauto|]. intros [H|[E _]]; [now left|]. subst k'. left.
    apply getTopic_Some_In in Hk. change k with (fst (k, t)).
    now apply in_map.
  - destruct (inherited k); simpl.
    + split; [tauto|]. intros [H|[_ H]]; [now left | discriminate].
    + tauto.
Qed.

Lemma alterTopic_absent f k m : getTopic k m = None -> alterTopic f k m = m.
Proof.
  induction m as [|[k' s] m IH]; simpl; [reflexivity|].
  destruct (String.eqb k' k); [discriminate|]. intros H. now rewrite IH.
Qed.

Lemma statAt_alterTopic f k k' m :
  (k = k' -> getTopic k m <> None) ->
  statAt k' (alterTopic f k m) =
  if String.eqb k k' then f (statAt k' m) else statAt k' m.
Proof.
  intros Hk. unfold statAt. rewrite getTopic_alterTopic.
  destruct (String.eqb_spec k k') as [E|E]; [|reflexivity].
  specialize (Hk E). subst k'. destruct (getTopic k m); [reflexivity | congruence].
Qed.

(** ** One pass of the loop, then the whole loop *)

Lemma visit_keys t q :
  keys (t_topicStats (visit t q)) =
  keys (ensureTopic (categoryOf q) (t_topicStats t)).
Proof.
  unfold visit. fold (categoryOf q).
  destruct (truthy (userAnswer q)); [|reflexivity].
  destruct (strictEq (userAnswer q) (Some (answer (base q)))); simpl;
    now rewrite ?keys_alterTopic.
Qed.

Lemma visit_counts t q :
  t_correctCount (visit t q) =
    t_correctCount t + (if isCorrect q then 1 else 0) /\
  t_incorrectCount (visit t q) =
    t_incorrectCount t + (if isIncorrect q then 1 else 0).
Proof.
  unfold visit, isCorrect, isIncorrect, answered.
  destruct (truthy (userAnswer q)); simpl; [|lia].
  destruct (strictEq (userAnswer q) (Some (answer (base q)))); simpl; lia.
Qed.

Lemma visit_statAt t q k :
  inherited k = false ->
  statAt k (t_topicStats (visit t q)) =
  {| correct := correct (statAt k (t_topicStats t))
                + (if inTopic k q && isCorrect q then 1 else 0);
     total := total (statAt k (t_topicStats t))
              + (if inTopic k q && answered q then 1 else 0) |}.
Proof.
  intros Hk.
  assert (Hin : categoryOf q = k ->
                getTopic (categoryOf q)
                  (ensureTopic (categoryOf q) (t_topicStats t)) <> None).
  { intros E. apply getTopic_ensureTopic_same. now rewrite E. }
  unfold visit, isCorrect, answered, inTopic. fold (categoryOf q).
  destruct (truthy (userAnswer q)); simpl.
  - destruct (strictEq (userAnswer q) (Some (answer (base q)))); simpl.
    + rewrite statAt_alterTopic.
      2:{ intros E. rewrite getTopic_alterTopic, String.eqb_refl.
          specialize (Hin E).
          destruct (getTopic (categoryOf q) (ensureTopic (categoryOf q) (t_topicStats t)));
            [discriminate | congruence]. }
      rewrite statAt_alterTopic by assumption.
      rewrite statAt_ensureTopic.
      destruct (String.eqb (categoryOf q) k); simpl.
      * reflexivity.
      * destruct (statAt k (t_topicStats t)); simpl. f_equal; lia.
    + rewrite statAt_alterTopic by assumption.
      rewrite statAt_ensureTopic.
      destruct (String.eqb (categoryOf q) k); simpl.
      * unfold incTotal. f_equal; lia.
      * destruct (statAt k (t_topicStats t)); simpl. f_equal; lia.
  - rewrite statAt_ensureTopic, !andb_false_r.
    destruct (statAt k (t_topicStats t)); simpl. f_equal; lia.
Qed.

Lemma fold_visit_counts qs : forall t,
  t_correctCount (fold_left visit qs t) = t_correctCount t + countIf isCorrect qs /\
  t_incorrectCount (fold_left visit qs t) = t_incorrectCount t + countIf isIncorrect qs.
Proof.
  induction qs as [|q qs IH]; intros t; simpl.
  - unfold countIf. simpl. lia.
  - destruct (IH (visit t q)) as [Hc Hi].
    destruct (visit_counts t q) as [Hc' Hi'].
    rewrite Hc, Hi, Hc', Hi', !countIf_cons. lia.
Qed.

Lemma fold_visit_statAt qs : forall t k,
  inherited k = false ->
  statAt k (t_topicStats (fold_left visit qs t)) =
  {| correct := correct (statAt k (t_topicStats t))
                + countIf (fun q => inTopic k q && isCorrect q) qs;
     total := total (statAt k (t_topicStats t))
              + countIf (fun q => inTopic k q && answered q) qs |}.
Proof.
  induction qs as [|q qs IH]; intros t k Hk; simpl.
  - unfold countIf. simpl. destruct (statAt k (t_topicStats t)); simpl.
    f_equal; lia.
  - rewrite IH, visit_statAt, !countIf_cons by assumption. simpl. f_equal; lia.
Qed.

Lemma fold_visit_NoDup qs : forall t,
  NoDup (keys (t_topicStats t)) ->
  NoDup (keys (t_topicStats (fold_left visit qs t))).
Proof.
  induction qs as [|q qs IH]; intros t ND; simpl; [assumption|].
  apply IH. rewrite visit_keys. now apply NoDup_keys_ensureTopic.
Qed.

Lemma fold_visit_keys qs : forall t k,
  In k (keys (t_topicStats (fold_left visit qs t))) <->
  In k (keys (t_topicStats t)) \/
  (inherited k = false /\ exists q, In q qs /\ categoryOf q = k).
Proof.
  induction qs as [|q qs IH]; intros t k; simpl.
  - split; [tauto|]. intros [H|[_ [q [[] _]]]]. assumption.
  - rewrite IH, visit_keys, In_keys_ensureTopic. split.
    + intros [[H|[E Hk]]|[Hk [q' [Hq' E]]]].
      * now left.
      * right. rewrite <- E. split; [assumption|].
        exists q. split; [now left | reflexivity].
      * right. split; [assumption|]. exists q'. split; [now right | assumption].
    + intros [H|[Hk [q' [[E'|Hq'] E]]]].
      * left. now left.
      * subst q'. left. right. split; [assumption | now rewrite E].
      * right. split; [assumption|]. now exists q'.
Qed.

(** The buckets of a report, read off the list of questions. *)
Lemma topicAnalysis_entry qs e :
  In e (topicAnalysis (calculateAnalysis qs)) ->
  te_correct e = countIf (fun q => inTopic (te_topic e) q && isCorrect q) qs /\
  te_total e = countIf (fun q => inTopic (te_topic e) q && answered q) qs /\
  te_accuracy e =
    if 0 <? te_total e
    then (inject_Z (te_correct e) / inject_Z (te_total e) * 100)%Q
    else 0%Q.
Proof.
  unfold calculateAnalysis. simpl. intros HIn.
  apply in_map_iff in HIn. destruct HIn as [[k s] [He HIn]]. subst e.
  assert (Hk : inherited k = false).
  { assert (H : In k (keys (t_topicStats (fold_left visit qs tally0)))).
    { change k with (fst (k, s)). now apply in_map. }
    apply fold_visit_keys in H. simpl in H. tauto. }
  apply getTopic_In in HIn.
  2:{ apply fold_visit_NoDup. simpl. constructor. }
  pose proof (fold_visit_statAt qs tally0 k Hk) as Hst.
  unfold statAt at 1 in Hst. rewrite HIn in Hst. simpl in Hst.
  subst s. simpl. repeat split; lia.
Qed.

Lemma topicAnalysis_topics qs k :
  In k (map te_topic (topicAnalysis (calculateAnalysis qs))) <->
  inherited k = false /\ exists q, In q qs /\ categoryOf q = k.
Proof.
  unfold calculateAnalysis. simpl. rewrite map_map.
  assert (E : map (fun x => te_topic (topicEntry x))
                (t_topicStats (fold_left visit qs tally0)) =
              keys (t_topicStats (fold_left visit qs tally0))).
  { apply map_ext. now intros [k' s]. }
  rewrite E, fold_visit_keys. simpl. tauto.
Qed.

Lemma topicAnalysis_NoDup qs :
  NoDup (map te_topic (topicAnalysis (calculateAnalysis qs))).
Proof.
  unfold calculateAnalysis. simpl. rewrite map_map.
  assert (E : map (fun x => te_topic (topicEntry x))
                (t_topicStats (fold_left visit qs tally0)) =
              keys (t_topicStats (fold_left visit qs tally0))).
  { apply map_ext. now intros [k' s]. }
  rewrite E. apply fold_visit_NoDup. simpl. constructor.
Qed.

(** ** Scoring *)

Lemma countIf_filter_implied (p h : SessionQuestion -> bool) qs :
  (forall q, p q = true -> h q = true) ->
  countIf p (filter h qs) = countIf p qs.
Proof.
  intros Hph. unfold countIf. f_equal. f_equal.
  induction qs as [|q qs IH]; simpl; [reflexivity|].
  destruct (h q) eqn:Hh; simpl.
  - now rewrite IH.
  - destruct (p q) eqn:Hp; [|assumption].
    apply Hph in Hp. congruence.
Qed.

Lemma answered_hasAnswer q : answered q = true -> hasAnswer q = true.
Proof.
  unfold answered, hasAnswer, truthy. now destruct (userAnswer q).
Qed.

Lemma answered_eq_hasAnswer q :
  userAnswer q <> Some "" -> answered q = hasAnswer q.
Proof.
  unfold answered, hasAnswer, truthy. destruct (userAnswer q) as [s|]; [|reflexivity].
  intros H. destruct (String.eqb_spec s "") as [E|E]; [subst; contradiction | reflexivity].
Qed.

Lemma countIf_ext_in (p p' : SessionQuestion -> bool) qs :
  (forall q, In q qs -> p q = p' q) -> countIf p qs = countIf p' qs.
Proof.
  intros H. unfold countIf. f_equal. f_equal.
  induction qs as [|q qs IH]; [reflexivity|]. simpl.
  rewrite (H q) by now left.
  rewrite IH; [reflexivity|]. intros q' Hq'. apply H. now right.
Qed.

Lemma count_partition qs :
  countIf isCorrect qs + countIf isIncorrect qs
  + countIf (fun q => negb (answered q)) qs = Z.of_nat (List.length qs).
Proof.
  induction qs as [|q qs IH]; [reflexivity|].
  rewrite !countIf_cons.
  change (List.length (q :: qs)) with (S (List.length qs)).
  rewrite Nat2Z.inj_succ.
  assert (Hq : (if isCorrect q then 1 else 0) + (if isIncorrect q then 1 else 0)
               + (if negb (answered q) then 1 else 0) = 1).
  { unfold isCorrect, isIncorrect.
    now destruct (answered q), (strictEq (userAnswer q) (Some (answer (base q)))). }
  lia.
Qed.

(** The numbers of a report.  For every list of session questions, the report of
    [calculateAnalysis] has [correctCount] = the number of answered questions
    whose answer is the right one, [totalQuestions] = the length of the list,
    [score = correctCount - 0.25 * incorrectCount] where [incorrectCount] is
    the number of answered questions whose answer is wrong,
    [accuracy = correctCount / totalQuestions * 100] (0 for the empty list)
    and [passed] exactly when the list is not empty and
    [score >= totalQuestions * 0.6].  Both counts count only questions whose
    [userAnswer] is not null: dropping the null ones changes neither, and
    since the test is [if (q.userAnswer)] they count every question with a
    [userAnswer] when none is the empty string.  Right, wrong and unanswered
    questions add up to the total.  In
    particular ten questions with six right and two wrong give score 5.5,
    accuracy 60 and [passed = false]. *)
Theorem calculateAnalysis_score (qs : list SessionQuestion) :
  let r := calculateAnalysis qs in
  let c := countIf isCorrect qs in
  let w := countIf isIncorrect qs in
  let n := Z.of_nat (List.length qs) in
  correctCount r = c /\
  totalQuestions r = n /\
  (score r == inject_Z c - 0.25 * inject_Z w)%Q /\
  (accuracy r == if n =? 0 then 0 else inject_Z c / inject_Z n * 100)%Q /\
  (passed r = true <->
     n <> 0 /\ (inject_Z n * 0.6 <= inject_Z c - 0.25 * inject_Z w)%Q) /\
  c = countIf isCorrect (filter hasAnswer qs) /\
  w = countIf isIncorrect (filter hasAnswer qs) /\
  c + w + countIf (fun q => negb (answered q)) qs = n /\
  ((forall q, In q qs -> userAnswer q <> Some "") ->
     c = countIf (fun q => hasAnswer q && strictEq (userAnswer q) (Some (answer (base q)))) qs /\
     w = countIf (fun q => hasAnswer q && negb (strictEq (userAnswer q) (Some (answer (base q))))) qs) /\
  (n = 10 -> c = 6 -> w = 2 ->
     (score r == 5.5)%Q /\ (accuracy r == 60)%Q /\ passed r = false).
Proof.
  intros r c w n.
  destruct (fold_visit_counts qs tally0) as [Hc Hw]. simpl in Hc, Hw.
  assert (Hscore : (score r == inject_Z c - 0.25 * inject_Z w)%Q).
  { subst r. unfold calculateAnalysis. simpl. rewrite Hc, Hw. fold c w. ring. }
  assert (Hacc : (accuracy r == if n =? 0 then 0 else inject_Z c / inject_Z n * 100)%Q).
  { subst r. unfold calculateAnalysis. simpl. fold n. rewrite Hc. fold c.
    destruct (Z.ltb_spec 0 n), (Z.eqb_spec n 0); try lia; reflexivity. }
  assert (Hpass : passed r = true <->
     n <> 0 /\ (inject_Z n * 0.6 <= inject_Z c - 0.25 * inject_Z w)%Q).
  { rewrite <- Hscore. subst r. unfold calculateAnalysis. simpl. fold n.
    destruct (Z.ltb_spec 0 n).
    - rewrite Qle_bool_iff. split; [intros Hle; split; [lia | exact Hle] | tauto].
    - split; [discriminate | intros [Hn _]; subst n; lia]. }
  split; [exact Hc|]. split; [reflexivity|]. split; [exact Hscore|].
  split; [exact Hacc|]. split; [exact Hpass|].
  split.
  { symmetry. apply countIf_filter_implied. intros q Hq.
    apply answered_hasAnswer. unfold isCorrect in Hq.
    now apply andb_true_iff in Hq. }
  split.
  { symmetry. apply countIf_filter_implied. intros q Hq.
    apply answered_hasAnswer. unfold isIncorrect in Hq.
    now apply andb_true_iff in Hq. }
  split; [apply count_partition|].
  split.
  { intros Hblank. split; apply countIf_ext_in; intros q Hq;
      unfold isCorrect, isIncorrect; f_equal; apply answered_eq_hasAnswer;
      now apply Hblank. }
  intros Hn Hc6 Hw2. split; [|split].
  - rewrite Hscore, Hc6, Hw2. reflexivity.
  - rewrite Hacc, Hn, Hc6. reflexivity.
  - destruct (passed r) eqn:Hp; [|reflexivity].
    destruct (proj1 Hpass eq_refl) as [_ Hle].
    rewrite Hn, Hc6, Hw2 in Hle. vm_compute in Hle. now exfalso.
Qed.

Lemma calculateAnalysis_score_witness :
  let r := calculateAnalysis tenQuestions in
  (score r == 5.5)%Q /\ (accuracy r == 60)%Q /\ passed r = false.
Proof.
  apply (calculateAnalysis_score tenQuestions); reflexivity.
Defined.

(** C1.  The claim counts every question whose [userAnswer] is not null;
    [calculateAnalysis] tests [if (q.userAnswer)] and so passes over an
    answer that is the empty string.  The question [blankQuestion] has the
    options "" and "B"; chosen through [handleSelectAnswer], the option ""
    becomes its [userAnswer], which is not null and differs from the answer
    "B".  The claim's counts give one wrong answer and the score -0.25;
    the report has [correctCount = 0] and score 0: the wrong answer goes
    without penalty. *)
Theorem calculateAnalysis_empty_answer :
  let r := calculateAnalysis emptyAnswered in
  questions (handleSelectAnswer (freshQuestion blankQuestion) "" blankRunning)
    = emptyAnswered /\
  map userAnswer emptyAnswered = [Some ""] /\
  map hasAnswer emptyAnswered = [true] /\
  countIf specCorrect emptyAnswered = 0 /\
  countIf specIncorrect emptyAnswered = 1 /\
  (specScore emptyAnswered == -0.25)%Q /\
  correctCount r = 0 /\
  (score r == 0)%Q /\
  ~ (score r == specScore emptyAnswered)%Q.
Proof.
  repeat split. intros H. discriminate H.
Qed.

(** ** The states the store can be in *)

Lemma navigateToQuestion_cases index st :
  let len := Z.of_nat (List.length (questions st)) in
  (0 <= index < len /\
   navigateToQuestion index st =
     {| allQuestions := allQuestions st;
        questions := questions st;
        currentQuestionIndex := index;
        isTestRunning := isTestRunning st;
        startTime := startTime st;
        finalResults := finalResults st;
        testDurationMinutes := testDurationMinutes st |}) \/
  (~ (0 <= index < len) /\ navigateToQuestion index st = st).
Proof.
  unfold navigateToQuestion.
  destruct (Z.leb_spec 0 index), (Z.ltb_spec index (Z.of_nat (List.length (questions st))));
    simpl; [left; split; [lia | reflexivity] | right; split; [lia | reflexivity] ..].
Qed.

Lemma reachable_indexOk st : reachable st -> indexOk st.
Proof.
  unfold indexOk.
  induction 1 as [ | qs st _ IH | sr now config st _ _ _
                 | i a st _ IH | i st _ IH | index st _ IH
                 | st _ IH | st _ _ ]; simpl; try (now left).
  - exact IH.
  - rewrite length_map. exact IH.
  - rewrite length_map. exact IH.
  - destruct (navigateToQuestion_cases index st) as [[Hin E]|[Hout E]];
      rewrite E; simpl; [now right | exact IH].
  - exact IH.
Qed.

Lemma running3_reachable : reachable running3.
Proof.
  apply reach_navigate, reach_start.
  - intros l. apply Permutation_refl.
  - apply reach_load, reach_init.
Qed.

(** ** Navigation *)

(** C6.  In every state of the store whose [questions] are not empty, and
    for every requested index, [navigateToQuestion index] sets
    [currentQuestionIndex] to [index] and changes no other field when
    [0 <= index < questions.length], and otherwise changes nothing; in both
    cases [0 <= currentQuestionIndex < questions.length] holds afterwards. *)
Theorem navigateToQuestion_in_range (st : Store) (index : Z) :
  reachable st ->
  questions st <> [] ->
  let st' := navigateToQuestion index st in
  let len := Z.of_nat (List.length (questions st)) in
  (0 <= index < len ->
     currentQuestionIndex st' = index /\
     questions st' = questions st /\ allQuestions st' = allQuestions st /\
     isTestRunning st' = isTestRunning st /\ startTime st' = startTime st /\
     finalResults st' = finalResults st /\
     testDurationMinutes st' = testDurationMinutes st) /\
  (~ (0 <= index < len) -> st' = st) /\
  0 <= currentQuestionIndex st' < Z.of_nat (List.length (questions st')).
Proof.
  intros Hreach Hne st' len.
  pose proof (reachable_indexOk st Hreach) as Hok.
  assert (Hlen : 0 < len).
  { subst len. destruct (questions st); [congruence | simpl; lia]. }
  subst st'.
  destruct (navigateToQuestion_cases index st) as [[Hin E]|[Hout E]];
    fold len in Hin || fold len in Hout; rewrite E.
  - split; [intros _; simpl; repeat split; reflexivity |].
    split; [intros Hout; contradiction | simpl; exact Hin].
  - split; [intros Hin; contradiction |].
    split; [reflexivity |].
    destruct Hok as [H0|Hr]; [rewrite H0; fold len; lia | exact Hr].
Qed.

Lemma navigateToQuestion_in_range_witness :
  currentQuestionIndex (navigateToQuestion 2 running3) = 2 /\
  navigateToQuestion 3 running3 = running3 /\
  navigateToQuestion (-1) running3 = running3.
Proof.
  assert (Hne : questions running3 <> []) by (vm_compute; discriminate).
  split; [|split].
  - apply (navigateToQuestion_in_range running3 2 running3_reachable Hne).
    simpl. lia.
  - apply (navigateToQuestion_in_range running3 3 running3_reachable Hne).
    simpl. lia.
  - apply (navigateToQuestion_in_range running3 (-1) running3_reachable Hne).
    simpl. lia.
Defined.

(** ** Reset *)

(** C9.  [reset] sets [questions] to the empty array, [currentQuestionIndex]
    to 0, [isTestRunning] to false, [startTime] to 0, [finalResults] to null
    and [testDurationMinutes] to 0, the values the store is created with,
    and leaves [allQuestions] as it was. *)
Theorem reset_keeps_bank (st : Store) :
  questions (reset st) = [] /\
  currentQuestionIndex (reset st) = 0 /\
  isTestRunning (reset st) = false /\
  startTime (reset st) = 0 /\
  finalResults (reset st) = None /\
  testDurationMinutes (reset st) = 0 /\
  allQuestions (reset st) = allQuestions st /\
  reset st = loadQuestions (allQuestions st) initialStore.
Proof.
  repeat split.
Qed.

(** ** Choosing an answer *)

Lemma selectAnswer_questions questionId a st :
  questions (selectAnswer questionId a st) =
  map (fun q => if String.eqb (id (base q)) questionId then withAnswer a q else q)
      (questions st).
Proof. reflexivity. Qed.

(** C2, as stated, fails.  The store's [selectAnswer] has no guard: called
    with "A" and then with "B" for the same question it leaves "B".  The
    guard of [handleSelectAnswer] tests truthiness, so an answer that is the
    empty string, which is not null, is replaced as well. *)
Lemma selectAnswer_overwrites :
  map userAnswer (questions answeredA) = [Some "A"; None; None] /\
  map userAnswer (questions (selectAnswer "q1" "B" answeredA))
    = [Some "B"; None; None] /\
  Some "B" <> Some "A" /\
  let st1 := handleSelectAnswer (freshQuestion blankQuestion) "" blankRunning in
  map userAnswer (questions st1) = [Some ""] /\
  map userAnswer
    (questions (handleSelectAnswer (withAnswer "" (freshQuestion blankQuestion)) "B" st1))
    = [Some "B"].
Proof.
  repeat split. discriminate.
Qed.

(** C2, amended.  The store's [selectAnswer] sets [userAnswer] to the given
    option on every question with the given id, answered or not.  The lock
    is in [handleSelectAnswer]: for a question of the test that is not yet
    answered, the first non-empty option chosen through the handler becomes
    its [userAnswer], and from then on the handler, whatever the option,
    leaves the store as it is; in general the handler does nothing when the
    card's question has a non-empty [userAnswer]. *)
Theorem handleSelectAnswer_first_answer_final
    (st : Store) (q : SessionQuestion) (a : string) :
  In q (questions st) ->
  (forall q', In q' (questions (selectAnswer (id (base q)) a st)) ->
     id (base q') = id (base q) -> userAnswer q' = Some a) /\
  (userAnswer q = None -> a <> "" ->
     let st1 := handleSelectAnswer q a st in
     let q1 := withAnswer a q in
     In q1 (questions st1) /\ userAnswer q1 = Some a /\
     forall b, handleSelectAnswer q1 b st1 = st1) /\
  (truthy (userAnswer q) = true -> forall b, handleSelectAnswer q b st = st).
Proof.
  intros HIn. split; [|split].
  - intros q' Hq' Hid. rewrite selectAnswer_questions in Hq'.
    apply in_map_iff in Hq'. destruct Hq' as [q0 [E _]].
    destruct (String.eqb_spec (id (base q0)) (id (base q))) as [E0|E0].
    + now subst q'.
    + subst q'. contradiction.
  - intros Hnone Ha st1 q1. split; [|split].
    + subst st1. unfold handleSelectAnswer. rewrite Hnone. simpl.
      apply in_map_iff. exists q. split; [|exact HIn].
      now rewrite String.eqb_refl.
    + reflexivity.
    + intros b. unfold handleSelectAnswer at 1. subst q1. simpl.
      destruct (String.eqb_spec a "") as [E|E]; [contradiction | reflexivity].
  - intros Ht b. unfold handleSelectAnswer. now rewrite Ht.
Qed.

Lemma handleSelectAnswer_first_answer_final_witness :
  let q := freshQuestion (mkQuestion "q1" (Some "Options")) in
  let st1 := handleSelectAnswer q "A" running3 in
  In (withAnswer "A" q) (questions st1) /\
  handleSelectAnswer (withAnswer "A" q) "B" st1 = st1.
Proof.
  intros q st1.
  assert (HIn : In q (questions running3)) by (left; reflexivity).
  destruct (handleSelectAnswer_first_answer_final running3 q "A" HIn)
    as [_ [Hfirst _]].
  destruct (Hfirst eq_refl ltac:(discriminate)) as [H1 [_ H2]].
  split; [exact H1 | exact (H2 "B")].
Defined.

(** ** Submitting *)

(** C4, as stated, fails: [submitTest] called in the idle state that
    [reset] leaves does produce a report, the one of the empty question
    list, and stores it in [finalResults], which was null. *)
Lemma submitTest_when_idle :
  isTestRunning (reset initialStore) = false /\
  finalResults (reset initialStore) = None /\
  finalResults (submitTest (reset initialStore)) = Some (calculateAnalysis []) /\
  submitTest (reset initialStore) <> reset initialStore.
Proof.
  repeat split. discriminate.
Qed.

(** C4, amended.  [submitTest] does not look at [isTestRunning]: in every
    state it computes the report of the current [questions], stores it in
    [finalResults], sets [isTestRunning] to false and leaves the other
    fields.  A second call right after the first computes an equal report
    and leaves an equal state, and so does any number of calls in a row. *)
Theorem submitTest_twice (st : Store) :
  finalResults (submitTest st) = Some (calculateAnalysis (questions st)) /\
  isTestRunning (submitTest st) = false /\
  questions (submitTest st) = questions st /\
  allQuestions (submitTest st) = allQuestions st /\
  currentQuestionIndex (submitTest st) = currentQuestionIndex st /\
  startTime (submitTest st) = startTime st /\
  testDurationMinutes (submitTest st) = testDurationMinutes st /\
  submitTest (submitTest st) = submitTest st /\
  (forall n : nat, Nat.iter (S n) submitTest st = submitTest st).
Proof.
  repeat split.
  intros n. induction n as [|n IH]; [reflexivity|].
  change (Nat.iter (S (S n)) submitTest st)
    with (submitTest (Nat.iter (S n) submitTest st)).
  now rewrite IH.
Qed.

(** ** Starting a test *)



Lemma slice0_nonneg {A : Type} (l : list A) (e : Z) :
  0 <= e -> slice0 l e = firstn (Z.to_nat e) l.
Proof.
  intros He. unfold slice0.
  destruct (Z.ltb_spec e 0) as [H|_]; [lia|].
  destruct (Z.le_gt_cases e (Z.of_nat (List.length l))) as [Hle|Hgt].
  - now rewrite Z.min_l.
  - rewrite Z.min_r by lia. rewrite Nat2Z.id, firstn_all.
    symmetry. apply firstn_all2. lia.
Qed.

Lemma slice0_length {A : Type} (l : list A) (e : Z) :
  0 <= e ->
  Z.of_nat (List.length (slice0 l e)) = Z.min e (Z.of_nat (List.length l)).
Proof.
  intros He. rewrite slice0_nonneg by assumption.
  rewrite length_firstn. lia.
Qed.


(** [startQuiz] never loses a question of the bank: it leaves the bank as
    it is under a filter, and shuffled otherwise. *)
Lemma startQuiz_bank sortRandom now config st :
  (forall l, Permutation l (sortRandom l)) ->
  Permutation (allQuestions st) (allQuestions (startQuiz sortRandom now config st)) /\
  (isSubject config || isPaper config = true ->
     allQuestions (startQuiz sortRandom now config st) = allQuestions st).
Proof.
  intros Hperm. unfold startQuiz, filterQuestions. cbn [allQuestions].
  destruct (isSubject config); [split; [apply Permutation_refl | reflexivity]|].
  destruct (isPaper config); [split; [apply Permutation_refl | reflexivity]|].
  split; [apply Hperm | discriminate].
Qed.

(** [Math.ceil(count * 1.2)] in integers. *)
Lemma duration_closed_form config :
  duration config = (6 * count config + 4) / 5.
Proof.
  unfold duration, Qceiling, Qfloor. cbn -[Z.mul Z.div Z.add Z.opp].
  generalize (count config). intros c.
  pose proof (Z.div_mod (- (c * 12)) 10 ltac:(lia)).
  pose proof (Z.mod_pos_bound (- (c * 12)) 10 ltac:(lia)).
  pose proof (Z.div_mod (6 * c + 4) 5 ltac:(lia)).
  pose proof (Z.mod_pos_bound (6 * c + 4) 5 ltac:(lia)).
  lia.
Qed.

(** C5, as stated, fails: with a filter that matches nothing [startQuiz]
    raises no error and sets [isTestRunning] to true, with no questions. *)
Lemma startQuiz_empty_runs :
  let st := loadQuestions bank4 initialStore in
  filterQuestions noSwaps (allQuestions st) = [] /\
  isTestRunning (startQuiz keepOrder 1000 noSwaps st) = true /\
  questions (startQuiz keepOrder 1000 noSwaps st) = [].
Proof.
  repeat split.
Qed.

(** C5, amended.  For every configuration whose filter matches no question
    of the bank, [startQuiz] still starts a test: it returns a state with
    [questions] empty, [isTestRunning] true, [currentQuestionIndex] 0,
    [finalResults] null and [testDurationMinutes = ceil(count * 1.2)].
    Refusing is left to the caller: for such a configuration the start
    button of [HomePage] is disabled. *)
Theorem startQuiz_no_match
    (sortRandom : list Question -> list Question) (now : Z)
    (config : Config) (st : Store) :
  (forall l, Permutation l (sortRandom l)) ->
  filterQuestions config (allQuestions st) = [] ->
  let st' := startQuiz sortRandom now config st in
  questions st' = [] /\
  isTestRunning st' = true /\
  currentQuestionIndex st' = 0 /\
  startTime st' = now /\
  finalResults st' = None /\
  testDurationMinutes st' = duration config /\
  startDisabled config st = true.
Proof.
  intros Hperm Hnone st'. subst st'.
  assert (Hs : sortRandom [] = []) by apply Permutation_nil, Hperm.
  split.
  { unfold startQuiz. cbn [questions]. rewrite Hnone, Hs.
    unfold slice0. now rewrite firstn_nil. }
  repeat split.
  unfold startDisabled, maxQuestions. rewrite Hnone. apply orb_true_r.
Qed.

Lemma startQuiz_no_match_witness :
  let st := loadQuestions bank4 initialStore in
  questions (startQuiz keepOrder 1000 noSwaps st) = [] /\
  isTestRunning (startQuiz keepOrder 1000 noSwaps st) = true /\
  startDisabled noSwaps st = true.
Proof.
  intros st.
  destruct (startQuiz_no_match keepOrder 1000 noSwaps st
              (fun l => Permutation_refl l) eq_refl)
    as [H1 [H2 [_ [_ [_ [_ H7]]]]]].
  split; [exact H1 | split; [exact H2 | exact H7]].
Defined.



(** ** Loading the bank *)

(** C8, as stated, fails: a record without options, whose answer is
    therefore not one of them, is loaded and replaces the bank, through
    [handleFileChange] as well as through [loadQuestions] itself. *)
Lemma load_accepts_malformed :
  let st := loadQuestions bank3 initialStore in
  ~ wellFormed noOptions /\
  handleFileChange (jsonFile [noOptions]) st = (loadQuestions [noOptions] st, Some "") /\
  allQuestions (loadQuestions [noOptions] st) = [noOptions].
Proof.
  split; [|split; reflexivity].
  intros [H _]. now apply H.
Qed.

(** C8, amended.  [loadQuestions] never fails: it replaces the whole bank
    by its argument, whatever the records are, and touches no other field.
    [handleFileChange] calls it, and clears the error message, exactly when
    the file is a JSON file whose text parses to a non-empty array; the
    records themselves are not inspected.  For every other input it leaves
    the store, and so the bank, as it was and sets an error message. *)
Theorem handleFileChange_all_or_nothing (file : option File) (st : Store) :
  (forall qs, accepted file qs ->
     handleFileChange file st = (loadQuestions qs st, Some "")) /\
  ((forall qs, ~ accepted file qs) ->
     fst (handleFileChange file st) = st /\
     exists msg, snd (handleFileChange file st) = Some msg /\ msg <> "") /\
  (forall qs,
     allQuestions (loadQuestions qs st) = qs /\
     questions (loadQuestions qs st) = questions st /\
     currentQuestionIndex (loadQuestions qs st) = currentQuestionIndex st /\
     isTestRunning (loadQuestions qs st) = isTestRunning st /\
     startTime (loadQuestions qs st) = startTime st /\
     finalResults (loadQuestions qs st) = finalResults st /\
     testDurationMinutes (loadQuestions qs st) = testDurationMinutes st).
Proof.
  split; [|split].
  - intros qs [f [Hf [Hm [Hc Hne]]]]. subst file.
    unfold handleFileChange. rewrite Hm, Hc. simpl.
    destruct qs; [congruence | reflexivity].
  - intros Hno. unfold handleFileChange.
    destruct file as [f|]; [|split; [reflexivity | eexists; split; [reflexivity | discriminate]]].
    destruct (String.eqb_spec (mimeType f) "application/json") as [Hm|Hm];
      [|split; [reflexivity | eexists; split; [reflexivity | discriminate]]].
    destruct (content f) as [| |qs] eqn:Hc;
      try (split; [reflexivity | eexists; split; [reflexivity | discriminate]]).
    destruct qs as [|q qs];
      [split; [reflexivity | eexists; split; [reflexivity | discriminate]]|].
    exfalso. apply (Hno (q :: qs)). exists f. repeat split; try assumption.
    discriminate.
  - intros qs. repeat split.
Qed.

Lemma handleFileChange_all_or_nothing_witness :
  handleFileChange (jsonFile bank3) initialStore
    = (loadQuestions bank3 initialStore, Some "").
Proof.
  apply (handleFileChange_all_or_nothing (jsonFile bank3) initialStore).
  exists {| mimeType := "application/json"; content := AnArray bank3 |}.
  repeat split. discriminate.
Defined.

(** ** The topic breakdown *)

Lemma countIf_pos p qs :
  1 <= countIf p qs <-> exists q, In q qs /\ p q = true.
Proof.
  induction qs as [|q qs IH].
  - unfold countIf. simpl. split; [lia | intros [q [[] _]]].
  - rewrite countIf_cons. pose proof (countIf_nonneg p qs) as Hnn.
    destruct (p q) eqn:Hp.
    + split; [|lia]. intros _. exists q. split; [now left | assumption].
    + rewrite Z.add_0_l, IH. split.
      * intros [q' [Hq' Hp']]. exists q'. split; [now right | assumption].
      * intros [q' [[E|Hq'] Hp']]; [congruence | now exists q'].
Qed.





(** The spec's example: two answered questions of "Options", one right and
    one wrong, and a third one unanswered. *)
Example topicAnalysis_options :
  map (fun e => (te_topic e, te_correct e, te_total e, Qred (te_accuracy e)))
      (topicAnalysis (calculateAnalysis
         [ mkSession "q1" (Some "Options") (Some "A");
           mkSession "q2" (Some "Options") (Some "B");
           mkSession "q3" (Some "Options") None ]))
  = [ ("Options", 1, 2, 50%Q) ].
Proof. reflexivity. Qed.

(** C10.  A question whose [category] is missing or the empty string is
    put in the bucket "General": the report has an entry with that topic,
    whose counters count the answered questions whose category is missing,
    empty or "General", this question among them when it is answered; no
    input makes [calculateAnalysis] fail. *)
Theorem missing_category_is_General (qs : list SessionQuestion) (q : SessionQuestion) :
  In q qs ->
  category (base q) = None \/ category (base q) = Some "" ->
  exists e,
    In e (topicAnalysis (calculateAnalysis qs)) /\
    te_topic e = "General" /\
    te_total e = countIf (fun q' => inTopic "General" q' && answered q') qs /\
    te_correct e = countIf (fun q' => inTopic "General" q' && isCorrect q') qs /\
    (answered q = true -> 1 <= te_total e) /\
    (isCorrect q = true -> 1 <= te_correct e).
Proof.
  intros HIn Hcat.
  assert (Hgen : categoryOf q = "General").
  { unfold categoryOf. destruct Hcat as [E|E]; now rewrite E. }
  assert (Hk : In "General" (map te_topic (topicAnalysis (calculateAnalysis qs)))).
  { apply topicAnalysis_topics. split; [reflexivity | now exists q]. }
  apply in_map_iff in Hk. destruct Hk as [e [Htopic He]].
  exists e. destruct (topicAnalysis_entry qs e He) as [Hc [Ht _]].
  rewrite Htopic in Hc, Ht.
  split; [exact He|]. split; [exact Htopic|].
  split; [exact Ht|]. split; [exact Hc|]. split.
  - intros Hans. rewrite Ht. apply countIf_pos. exists q.
    split; [assumption|]. unfold inTopic. now rewrite Hgen, Hans.
  - intros Hcor. rewrite Hc. apply countIf_pos. exists q.
    split; [assumption|]. unfold inTopic. now rewrite Hgen, Hcor.
Qed.

Lemma missing_category_is_General_witness :
  exists e,
    In e (topicAnalysis (calculateAnalysis
            [ mkSession "q1" (Some "Options") (Some "A");
              mkSession "q3" None (Some "A") ])) /\
    te_topic e = "General" /\ 1 <= te_total e.
Proof.
  destruct (missing_category_is_General
              [ mkSession "q1" (Some "Options") (Some "A");
                mkSession "q3" None (Some "A") ]
              (mkSession "q3" None (Some "A"))
              ltac:(right; left; reflexivity) ltac:(left; reflexivity))
    as [e [He [Ht [_ [_ [Hans _]]]]]].
  exists e. split; [exact He | split; [exact Ht | exact (Hans eq_refl)]].
Defined.

(** ** Invariants of the store *)

Lemma map_base_answer questionId a qs :
  map base
    (map (fun q => if String.eqb (id (base q)) questionId then withAnswer a q else q) qs)
  = map base qs.
Proof.
  rewrite map_map. apply map_ext. intros q.
  now destruct (String.eqb (id (base q)) questionId).
Qed.

Lemma map_base_shown questionId qs :
  map base
    (map (fun q => if String.eqb (id (base q)) questionId then withShown q else q) qs)
  = map base qs.
Proof.
  rewrite map_map. apply map_ext. intros q.
  now destruct (String.eqb (id (base q)) questionId).
Qed.

Lemma submittedThenAnswered_reachable : reachable submittedThenAnswered.
Proof.
  apply reach_select, reach_submit, reach_select, running3_reachable.
Qed.

Lemma running_excludes_results st :
  reachable st -> isTestRunning st = true -> finalResults st = None.
Proof.
  induction 1 as [ | qs st _ IH | sr now config st _ _ _
                 | i a st _ IH | i st _ IH | index st _ IH
                 | st _ IH | st _ _ ]; simpl; try discriminate; try tauto.
  destruct (navigateToQuestion_cases index st) as [[_ E]|[_ E]];
    rewrite E; simpl; exact IH.
Qed.

(** In every state of the store a running test has no results yet:
    [isTestRunning] and a non-null [finalResults] never hold together. *)
Theorem reachable_running_no_results (st : Store) :
  reachable st -> isTestRunning st = true -> finalResults st = None.
Proof.
  apply running_excludes_results.
Qed.

Lemma reachable_running_no_results_witness :
  finalResults running3 = None.
Proof.
  apply (reachable_running_no_results running3 running3_reachable).
  reflexivity.
Defined.

(** In every state of the store the stored report, if any, is the analysis
    of its own [answeredQuestions], and these are the questions of the test
    as they were when it was submitted: the same records in the same order,
    whatever was answered or revealed since. *)
Theorem reachable_report_of_session (st : Store) (r : Report) :
  reachable st ->
  finalResults st = Some r ->
  r = calculateAnalysis (answeredQuestions r) /\
  map base (answeredQuestions r) = map base (questions st) /\
  totalQuestions r = Z.of_nat (List.length (questions st)).
Proof.
  intros Hreach. revert r.
  induction Hreach as [ | qs st _ IH | sr now config st _ _ _
                      | i a st _ IH | i st _ IH | index st _ IH
                      | st _ IH | st _ _ ]; simpl; intros r Hr;
    try discriminate.
  - now apply IH.
  - destruct (IH r Hr) as [H1 [H2 H3]]. rewrite map_base_answer, length_map.
    now repeat split.
  - destruct (IH r Hr) as [H1 [H2 H3]]. rewrite map_base_shown, length_map.
    now repeat split.
  - destruct (navigateToQuestion_cases index st) as [[_ E]|[_ E]];
      rewrite E in *; simpl in *; now apply IH.
  - inversion Hr; subst r. simpl. now repeat split.
Qed.

Lemma reachable_report_of_session_witness :
  exists r, finalResults submittedThenAnswered = Some r /\
            map base (answeredQuestions r) = map base (questions submittedThenAnswered) /\
            answeredQuestions r <> questions submittedThenAnswered.
Proof.
  exists (calculateAnalysis (questions answeredA)).
  split; [reflexivity|]. split.
  - apply (reachable_report_of_session submittedThenAnswered _
             submittedThenAnswered_reachable eq_refl).
  - discriminate.
Defined.

(** ** More on the report *)

Lemma visit_withShown t q : visit t (withShown q) = visit t q.
Proof. reflexivity. Qed.

Lemma fold_visit_map (f : SessionQuestion -> SessionQuestion) qs :
  (forall t q, visit t (f q) = visit t q) ->
  forall t, fold_left visit (map f qs) t = fold_left visit qs t.
Proof.
  intros Hf. induction qs as [|q qs IH]; intros t; simpl; [reflexivity|].
  now rewrite Hf, IH.
Qed.

(** Revealing an answer changes no number of the report: the analysis of
    the questions after [checkAnswer] has the same score, counts, accuracy,
    verdict and topic breakdown as before, and the same answers. *)
Theorem checkAnswer_keeps_report (questionId : string) (st : Store) :
  let r := calculateAnalysis (questions st) in
  let r' := calculateAnalysis (questions (checkAnswer questionId st)) in
  score r' = score r /\
  correctCount r' = correctCount r /\
  totalQuestions r' = totalQuestions r /\
  accuracy r' = accuracy r /\
  passed r' = passed r /\
  topicAnalysis r' = topicAnalysis r /\
  map userAnswer (answeredQuestions r') = map userAnswer (questions st) /\
  map base (answeredQuestions r') = map base (questions st).
Proof.
  intros r r'. subst r r'. unfold calculateAnalysis, checkAnswer. cbn [questions setQuestions
    score correctCount totalQuestions accuracy passed topicAnalysis answeredQuestions].
  rewrite fold_visit_map, length_map.
  2:{ intros t q. now destruct (String.eqb (id (base q)) questionId). }
  repeat split.
  - rewrite map_map. apply map_ext. intros q.
    now destruct (String.eqb (id (base q)) questionId).
  - apply map_base_shown.
Qed.

Lemma Qle_inject_sub (c w : Z) :
  0 <= w -> (inject_Z c - inject_Z w * 0.25 <= inject_Z c)%Q.
Proof.
  intros Hw. unfold Qle, Qminus, Qplus, Qmult, Qopp, inject_Z.
  cbn -[Z.mul Z.add Z.opp]. lia.
Qed.

Lemma Qle_sub_lower (c w n : Z) :
  0 <= c -> w <= n ->
  (- (0.25 * inject_Z n) <= inject_Z c - inject_Z w * 0.25)%Q.
Proof.
  intros Hc Hw. unfold Qle, Qminus, Qplus, Qmult, Qopp, inject_Z.
  cbn -[Z.mul Z.add Z.opp]. lia.
Qed.

Lemma accuracy_value (c : Z) (p : positive) :
  (inject_Z c / inject_Z (Z.pos p) * 100 == (100 * c) # p)%Q.
Proof.
  unfold Qeq, Qdiv, Qmult, Qinv, inject_Z. cbn -[Z.mul Z.add Z.opp]. lia.
Qed.

(** The numbers of a report are bounded by the number of questions:
    [0 <= correctCount <= totalQuestions],
    [-0.25 * totalQuestions <= score <= correctCount] and
    [0 <= accuracy <= 100]. *)
Theorem calculateAnalysis_bounds (qs : list SessionQuestion) :
  let r := calculateAnalysis qs in
  0 <= correctCount r <= totalQuestions r /\
  (- (0.25 * inject_Z (totalQuestions r)) <= score r)%Q /\
  (score r <= inject_Z (correctCount r))%Q /\
  (0 <= accuracy r)%Q /\ (accuracy r <= 100)%Q.
Proof.
  intros r. subst r. unfold calculateAnalysis.
  cbn [score correctCount totalQuestions accuracy].
  destruct (fold_visit_counts qs tally0) as [Hc Hw]. simpl in Hc, Hw.
  rewrite Hc, Hw.
  pose proof (count_partition qs) as Hpart.
  pose proof (countIf_nonneg isCorrect qs) as Hc0.
  pose proof (countIf_nonneg isIncorrect qs) as Hw0.
  pose proof (countIf_nonneg (fun q => negb (answered q)) qs) as Hu0.
  split; [lia|]. split; [apply Qle_sub_lower; lia|].
  split; [apply Qle_inject_sub; lia|].
  destruct (Z.of_nat (List.length qs)) as [|p|p] eqn:Hn; simpl.
  - split; [apply Qle_refl | discriminate].
  - rewrite accuracy_value. unfold Qle. cbn -[Z.mul]. split; [lia|].
    assert (Hle : countIf isCorrect qs <= Z.pos p) by lia. lia.
  - split; [apply Qle_refl | discriminate].
Qed.

(** The verdict in whole numbers: a test is passed exactly when it has a
    question and [20 * right - 5 * wrong >= 12 * totalQuestions]; a passed
    test therefore has at least three right answers in five questions, that
    is an accuracy of 60 or more. *)
Theorem passed_in_integers (qs : list SessionQuestion) :
  let r := calculateAnalysis qs in
  let w := countIf isIncorrect qs in
  (passed r = true <->
     0 < totalQuestions r /\
     12 * totalQuestions r <= 20 * correctCount r - 5 * w) /\
  (passed r = true ->
     3 * totalQuestions r <= 5 * correctCount r /\ (60 <= accuracy r)%Q).
Proof.
  intros r w. subst r w. unfold calculateAnalysis.
  cbn [score correctCount totalQuestions accuracy passed].
  destruct (fold_visit_counts qs tally0) as [Hc Hw]. simpl in Hc, Hw.
  rewrite Hc, Hw.
  pose proof (countIf_nonneg isIncorrect qs) as Hw0.
  set (c := countIf isCorrect qs) in *.
  set (w := countIf isIncorrect qs) in *.
  assert (Hq : forall n, (inject_Z n * 0.6 <= inject_Z c - inject_Z w * 0.25)%Q
                         <-> 12 * n <= 20 * c - 5 * w).
  { intros n. unfold Qle, Qminus, Qplus, Qmult, Qopp, inject_Z.
    cbn -[Z.mul Z.add Z.opp]. lia. }
  destruct (Z.of_nat (List.length qs)) as [|p|p] eqn:Hn;
    cbn [Z.ltb Z.compare].
  - split; [split; [discriminate | lia] | discriminate].
  - split.
    + rewrite Qle_bool_iff, Hq.
      split; [intros H; split; [lia | exact H] | tauto].
    + intros H. apply Qle_bool_iff, Hq in H.
      assert (H35 : 3 * Z.pos p <= 5 * c) by lia.
      split; [exact H35|].
      rewrite accuracy_value. unfold Qle. cbn -[Z.mul]. lia.
  - split; [split; [discriminate | lia] | discriminate].
Qed.

Lemma passed_in_integers_witness :
  passed (calculateAnalysis [ mkSession "q1" (Some "Options") (Some "A") ]) = true /\
  (60 <= accuracy (calculateAnalysis [ mkSession "q1" (Some "Options") (Some "A") ]))%Q.
Proof.
  split; [reflexivity|].
  apply (passed_in_integers [ mkSession "q1" (Some "Options") (Some "A") ]).
  reflexivity.
Defined.

Lemma sumStat_app f m1 m2 : sumStat f (m1 ++ m2) = sumStat f m1 + sumStat f m2.
Proof.
  induction m1 as [|kv m1 IH]; simpl; [reflexivity|]. rewrite IH. lia.
Qed.

Lemma sumStat_ensureTopic f k m :
  f zeroStat = 0 -> sumStat f (ensureTopic k m) = sumStat f m.
Proof.
  intros Hz. unfold ensureTopic. destruct (getTopic k m); [reflexivity|].
  destruct (inherited k); [reflexivity|].
  rewrite sumStat_app. simpl. fold zeroStat. rewrite Hz. lia.
Qed.

Lemma sumStat_alterTopic f g k m d :
  getTopic k m <> None -> (forall s, f (g s) = f s + d) ->
  sumStat f (alterTopic g k m) = sumStat f m + d.
Proof.
  intros Hk Hg. induction m as [|[k' s] m IH]; simpl in *; [congruence|].
  destruct (String.eqb k' k); simpl.
  - rewrite Hg. lia.
  - rewrite IH by assumption. lia.
Qed.

Lemma getTopic_alterTopic_present f k m :
  getTopic k m <> None -> getTopic k (alterTopic f k m) <> None.
Proof.
  intros H. rewrite getTopic_alterTopic, String.eqb_refl.
  destruct (getTopic k m); [discriminate | congruence].
Qed.

Lemma visit_ordinaryKeys t q :
  ordinaryKeys (t_topicStats t) -> ordinaryKeys (t_topicStats (visit t q)).
Proof.
  intros H k Hk. rewrite visit_keys in Hk. apply In_keys_ensureTopic in Hk.
  destruct Hk as [Hk|[E Hk]]; [now apply H | now rewrite <- E].
Qed.

Lemma visit_inherited t q :
  ordinaryKeys (t_topicStats t) -> inherited (categoryOf q) = true ->
  t_topicStats (visit t q) = t_topicStats t.
Proof.
  intros Hord Hinh.
  assert (Habs : getTopic (categoryOf q) (t_topicStats t) = None).
  { apply getTopic_None. intros HIn. apply Hord in HIn. congruence. }
  assert (He : ensureTopic (categoryOf q) (t_topicStats t) = t_topicStats t).
  { unfold ensureTopic. now rewrite Habs, Hinh. }
  unfold visit. fold (categoryOf q). rewrite He.
  destruct (truthy (userAnswer q)); [|reflexivity].
  destruct (strictEq (userAnswer q) (Some (answer (base q)))); simpl;
    rewrite (alterTopic_absent incTotal _ _ Habs);
    now rewrite ?(alterTopic_absent incCorrect _ _ Habs).
Qed.

Lemma visit_sumStat t q :
  ordinaryKeys (t_topicStats t) ->
  sumStat total (t_topicStats (visit t q)) =
    sumStat total (t_topicStats t) + (if answered q && ordinary q then 1 else 0) /\
  sumStat correct (t_topicStats (visit t q)) =
    sumStat correct (t_topicStats t) + (if isCorrect q && ordinary q then 1 else 0).
Proof.
  intros Hord. unfold ordinary.
  destruct (inherited (categoryOf q)) eqn:Hinh; cbn [negb].
  { rewrite (visit_inherited t q Hord Hinh), !andb_false_r. lia. }
  rewrite !andb_true_r.
  pose proof (getTopic_ensureTopic_same (categoryOf q) (t_topicStats t) Hinh) as Hin.
  unfold visit, isCorrect, answered. fold (categoryOf q).
  destruct (truthy (userAnswer q)); simpl.
  - destruct (strictEq (userAnswer q) (Some (answer (base q)))); simpl.
    + rewrite (sumStat_alterTopic total incCorrect _ _ 0),
              (sumStat_alterTopic correct incCorrect _ _ 1),
              (sumStat_alterTopic total incTotal _ _ 1),
              (sumStat_alterTopic correct incTotal _ _ 0),
              !sumStat_ensureTopic;
        try reflexivity; try assumption;
        try (now apply getTopic_alterTopic_present);
        try (intros s; simpl; lia).
      lia.
    + rewrite (sumStat_alterTopic total incTotal _ _ 1),
              (sumStat_alterTopic correct incTotal _ _ 0),
              !sumStat_ensureTopic;
        try reflexivity; try assumption; try (intros s; simpl; lia).
      lia.
  - rewrite !sumStat_ensureTopic by reflexivity. lia.
Qed.

Lemma fold_visit_sumStat qs : forall t,
  ordinaryKeys (t_topicStats t) ->
  sumStat total (t_topicStats (fold_left visit qs t)) =
    sumStat total (t_topicStats t) + countIf (fun q => answered q && ordinary q) qs /\
  sumStat correct (t_topicStats (fold_left visit qs t)) =
    sumStat correct (t_topicStats t) + countIf (fun q => isCorrect q && ordinary q) qs.
Proof.
  induction qs as [|q qs IH]; intros t Hord; simpl.
  - unfold countIf. simpl. lia.
  - destruct (IH (visit t q) (visit_ordinaryKeys t q Hord)) as [H1 H2].
    destruct (visit_sumStat t q Hord) as [H3 H4].
    rewrite H1, H2, H3, H4, !countIf_cons. lia.
Qed.

Lemma sumBy_topicEntry m :
  sumBy te_total (map topicEntry m) = sumStat total m /\
  sumBy te_correct (map topicEntry m) = sumStat correct m.
Proof.
  induction m as [|[k s] m [IH1 IH2]]; simpl; [tauto|].
  unfold sumBy in *. simpl. rewrite IH1, IH2. tauto.
Qed.

(** The buckets split among them the answered questions whose category is
    not a name objects inherit: over the entries of [topicAnalysis], [total]
    adds up to the number of such questions and [correct] to the number of
    those answered rightly.  When no category is such a name, these are the
    number of answered questions and [correctCount]. *)
Theorem topicAnalysis_sums (qs : list SessionQuestion) :
  let r := calculateAnalysis qs in
  sumBy te_total (topicAnalysis r) = countIf (fun q => answered q && ordinary q) qs /\
  sumBy te_correct (topicAnalysis r) = countIf (fun q => isCorrect q && ordinary q) qs /\
  ((forall q, In q qs -> ordinary q = true) ->
     sumBy te_total (topicAnalysis r) = countIf answered qs /\
     sumBy te_correct (topicAnalysis r) = correctCount r).
Proof.
  intros r. subst r. unfold calculateAnalysis. cbn [topicAnalysis correctCount].
  destruct (sumBy_topicEntry (t_topicStats (fold_left visit qs tally0))) as [E1 E2].
  assert (Hord : ordinaryKeys (t_topicStats tally0)) by (intros k []).
  destruct (fold_visit_sumStat qs tally0 Hord) as [H1 H2].
  destruct (fold_visit_counts qs tally0) as [Hc _].
  rewrite E1, E2, H1, H2, Hc. simpl.
  split; [reflexivity|]. split; [reflexivity|].
  intros Hall. split; apply countIf_ext_in; intros q Hq;
    now rewrite (Hall q Hq), andb_true_r.
Qed.

Lemma topicAnalysis_sums_witness :
  sumBy te_total (topicAnalysis (calculateAnalysis tenQuestions)) = 8 /\
  sumBy te_correct (topicAnalysis (calculateAnalysis tenQuestions)) = 6.
Proof.
  apply (topicAnalysis_sums tenQuestions).
  intros q Hq.
  repeat (destruct Hq as [Hq|Hq]; [subst q; reflexivity|]).
  destruct Hq.
Defined.

Lemma countIf_app p l1 l2 : countIf p (l1 ++ l2) = countIf p l1 + countIf p l2.
Proof.
  unfold countIf. rewrite filter_app, length_app. lia.
Qed.

Lemma countIf_none p qs :
  (forall q, In q qs -> p q = false) -> countIf p qs = 0.
Proof.
  intros H. induction qs as [|q qs IH]; [reflexivity|].
  rewrite countIf_cons, (H q) by now left.
  rewrite IH; [reflexivity|]. intros q' Hq'. apply H. now right.
Qed.

Lemma countIf_Permutation p l l' :
  Permutation l l' -> countIf p l = countIf p l'.
Proof.
  induction 1 as [|x l l' _ IH|x y l|l l' l'' _ IH1 _ IH2].
  - reflexivity.
  - rewrite !countIf_cons. lia.
  - rewrite !countIf_cons. lia.
  - congruence.
Qed.

Lemma selectAnswer_single st l1 q l2 a :
  questions st = l1 ++ q :: l2 ->
  (forall q', In q' (l1 ++ l2) -> id (base q') <> id (base q)) ->
  questions (selectAnswer (id (base q)) a st) = l1 ++ withAnswer a q :: l2.
Proof.
  intros Hqs Hid. rewrite selectAnswer_questions, Hqs, map_app. simpl.
  rewrite String.eqb_refl. f_equal; [|f_equal].
  - rewrite <- (map_id l1) at 2. apply map_ext_in. intros q' Hq'.
    destruct (String.eqb_spec (id (base q')) (id (base q))) as [E|E]; [|reflexivity].
    exfalso. apply (Hid q'); [apply in_or_app; now left | exact E].
  - rewrite <- (map_id l2) at 2. apply map_ext_in. intros q' Hq'.
    destruct (String.eqb_spec (id (base q')) (id (base q))) as [E|E]; [|reflexivity].
    exfalso. apply (Hid q'); [apply in_or_app; now right | exact E].
Qed.

(** Answering a question that has no answer yet, and whose id no other
    question of the test shares, moves the report by one mark: a right
    answer adds 1 to [correctCount] and to [score], a wrong one takes 0.25
    off [score] and leaves [correctCount]; [totalQuestions] stays. *)
Theorem selectAnswer_moves_score
    (st : Store) (l1 l2 : list SessionQuestion) (q : SessionQuestion) (a : string) :
  questions st = l1 ++ q :: l2 ->
  (forall q', In q' (l1 ++ l2) -> id (base q') <> id (base q)) ->
  answered q = false ->
  a <> "" ->
  let r := calculateAnalysis (questions st) in
  let r' := calculateAnalysis (questions (selectAnswer (id (base q)) a st)) in
  totalQuestions r' = totalQuestions r /\
  (a = answer (base q) ->
     correctCount r' = correctCount r + 1 /\ (score r' == score r + 1)%Q) /\
  (a <> answer (base q) ->
     correctCount r' = correctCount r /\ (score r' == score r - 0.25)%Q).
Proof.
  intros Hqs Hid Hun Ha r r'. subst r r'.
  rewrite (selectAnswer_single st l1 q l2 a Hqs Hid), Hqs.
  unfold calculateAnalysis. cbn [score correctCount totalQuestions].
  destruct (fold_visit_counts (l1 ++ q :: l2) tally0) as [Hc Hw].
  destruct (fold_visit_counts (l1 ++ withAnswer a q :: l2) tally0) as [Hc' Hw'].
  rewrite Hc, Hw, Hc', Hw'. simpl t_correctCount. simpl t_incorrectCount.
  rewrite !countIf_app, !countIf_cons, !length_app. simpl List.length.
  assert (Hq1 : isCorrect q = false) by (unfold isCorrect; now rewrite Hun).
  assert (Hq2 : isIncorrect q = false) by (unfold isIncorrect; now rewrite Hun).
  assert (Hans : answered (withAnswer a q) = true).
  { unfold answered, withAnswer, truthy. simpl.
    destruct (String.eqb_spec a "") as [E|E]; [contradiction | reflexivity]. }
  rewrite Hq1, Hq2. unfold isCorrect, isIncorrect. rewrite Hans.
  cbn [withAnswer userAnswer base strictEq andb].
  split; [reflexivity|]. split.
  - intros E. rewrite E, String.eqb_refl. cbn [negb].
    split; [lia|]. rewrite !Z.add_0_l, !inject_Z_plus. simpl inject_Z. ring.
  - intros E. apply String.eqb_neq in E. rewrite E. cbn [negb].
    split; [lia|]. rewrite !Z.add_0_l, !inject_Z_plus. simpl inject_Z.
    unfold Qeq. cbn -[Z.mul Z.add Z.opp]. ring.
Qed.

Lemma selectAnswer_moves_score_witness :
  correctCount (calculateAnalysis (questions (selectAnswer "q2" "A" running3))) =
  correctCount (calculateAnalysis (questions running3)) + 1.
Proof.
  apply (selectAnswer_moves_score running3
           [ freshQuestion (mkQuestion "q1" (Some "Options")) ]
           [ freshQuestion (mkQuestion "q3" None) ]
           (freshQuestion (mkQuestion "q2" (Some "Futures"))) "A").
  - reflexivity.
  - intros q' [E|[E|[]]]; subst q'; discriminate.
  - reflexivity.
  - discriminate.
  - reflexivity.
Defined.

Lemma fresh_unanswered l q :
  In q (map freshQuestion l) -> answered q = false.
Proof.
  intros H. apply in_map_iff in H. destruct H as [q0 [E _]]. now subst q.
Qed.

Lemma unanswered_counts qs :
  (forall q, In q qs -> answered q = false) ->
  countIf isCorrect qs = 0 /\ countIf isIncorrect qs = 0 /\
  forall k, countIf (fun q => inTopic k q && answered q) qs = 0 /\
            countIf (fun q => inTopic k q && isCorrect q) qs = 0.
Proof.
  intros H. repeat split; apply countIf_none; intros q Hq;
    unfold isCorrect, isIncorrect; rewrite (H q Hq);
    now rewrite ?andb_false_r.
Qed.

(** A test submitted right after it was started, nothing answered, gets a
    report with no right answer, score 0, accuracy 0, every topic at 0 of 0,
    and is not passed; and [isTestRunning] is false afterwards. *)
Theorem submit_untouched_test
    (sortRandom : list Question -> list Question) (now : Z)
    (config : Config) (st : Store) :
  let started := startQuiz sortRandom now config st in
  exists r,
    finalResults (submitTest started) = Some r /\
    isTestRunning (submitTest started) = false /\
    totalQuestions r = Z.of_nat (List.length (questions started)) /\
    correctCount r = 0 /\ (score r == 0)%Q /\ (accuracy r == 0)%Q /\
    passed r = false /\
    forall e, In e (topicAnalysis r) -> te_total e = 0 /\ te_correct e = 0.
Proof.
  intros started. exists (calculateAnalysis (questions started)).
  assert (Hun : forall q, In q (questions started) -> answered q = false).
  { intros q Hq. subst started. unfold startQuiz in Hq. simpl in Hq.
    now apply fresh_unanswered in Hq. }
  destruct (unanswered_counts _ Hun) as [Hc [Hw Hk]].
  destruct (fold_visit_counts (questions started) tally0) as [Hc' Hw'].
  rewrite Hc in Hc'. rewrite Hw in Hw'.
  change (t_correctCount tally0 + 0) with 0 in Hc'.
  change (t_incorrectCount tally0 + 0) with 0 in Hw'.
  split; [reflexivity|]. split; [reflexivity|]. split; [reflexivity|].
  split; [exact Hc'|].
  unfold calculateAnalysis. cbn [score accuracy passed]. rewrite Hc', Hw'.
  split; [reflexivity|].
  split; [destruct (0 <? Z.of_nat (List.length (questions started))); reflexivity|].
  split.
  - destruct (Z.of_nat (List.length (questions started))) as [|p|p]; reflexivity.
  - intros e He. destruct (topicAnalysis_entry _ e He) as [H1 [H2 _]].
    destruct (Hk (te_topic e)) as [H3 H4]. split; congruence.
Qed.

Lemma topicEntry_determined qs qs' e e' :
  Permutation qs qs' ->
  In e (topicAnalysis (calculateAnalysis qs)) ->
  In e' (topicAnalysis (calculateAnalysis qs')) ->
  te_topic e = te_topic e' -> e = e'.
Proof.
  intros Hperm He He' Ht.
  destruct (topicAnalysis_entry qs e He) as [Hc [Htot Ha]].
  destruct (topicAnalysis_entry qs' e' He') as [Hc' [Htot' Ha']].
  rewrite (countIf_Permutation _ _ _ Hperm), Ht, <- Hc' in Hc.
  rewrite (countIf_Permutation _ _ _ Hperm), Ht, <- Htot' in Htot.
  rewrite Hc, Htot, <- Ha' in Ha.
  destruct e, e'. simpl in *. congruence.
Qed.

Lemma topicAnalysis_In_Permutation qs qs' e :
  Permutation qs qs' ->
  In e (topicAnalysis (calculateAnalysis qs)) ->
  In e (topicAnalysis (calculateAnalysis qs')).
Proof.
  intros Hperm He.
  assert (Hk : In (te_topic e) (map te_topic (topicAnalysis (calculateAnalysis qs')))).
  { apply topicAnalysis_topics.
    assert (Hk0 : In (te_topic e) (map te_topic (topicAnalysis (calculateAnalysis qs))))
      by now apply in_map.
    apply topicAnalysis_topics in Hk0. destruct Hk0 as [Hord [q [Hq Hcat]]].
    split; [exact Hord|].
    exists q. split; [|exact Hcat]. now apply Permutation_in with (l := qs). }
  apply in_map_iff in Hk. destruct Hk as [e' [Ht He']].
  now rewrite (topicEntry_determined qs qs' e e' Hperm He He' (eq_sym Ht)).
Qed.

(** The report does not depend on the order the questions were shuffled
    into: two orders of the same questions give the same score, counts,
    accuracy and verdict, and the same topic entries, up to their order. *)
Theorem calculateAnalysis_any_order (qs qs' : list SessionQuestion) :
  Permutation qs qs' ->
  let r := calculateAnalysis qs in
  let r' := calculateAnalysis qs' in
  score r' = score r /\
  correctCount r' = correctCount r /\
  totalQuestions r' = totalQuestions r /\
  accuracy r' = accuracy r /\
  passed r' = passed r /\
  Permutation (topicAnalysis r) (topicAnalysis r').
Proof.
  intros Hperm r r'.
  assert (Hnum : score r' = score r /\ correctCount r' = correctCount r /\
                 totalQuestions r' = totalQuestions r /\
                 accuracy r' = accuracy r /\ passed r' = passed r).
  { subst r r'. unfold calculateAnalysis.
    cbn [score correctCount totalQuestions accuracy passed].
    destruct (fold_visit_counts qs tally0) as [Hc Hw].
    destruct (fold_visit_counts qs' tally0) as [Hc' Hw'].
    rewrite Hc, Hw, Hc', Hw', <- (Permutation_length Hperm),
      <- (countIf_Permutation isCorrect _ _ Hperm),
      <- (countIf_Permutation isIncorrect _ _ Hperm).
    repeat split. }
  destruct Hnum as [H1 [H2 [H3 [H4 H5]]]].
  repeat (split; [assumption|]).
  apply NoDup_Permutation.
  - apply NoDup_map_inv with (f := te_topic), topicAnalysis_NoDup.
  - apply NoDup_map_inv with (f := te_topic), topicAnalysis_NoDup.
  - intros e. split.
    + now apply topicAnalysis_In_Permutation.
    + apply topicAnalysis_In_Permutation. now apply Permutation_sym.
Qed.

Lemma calculateAnalysis_any_order_witness :
  score (calculateAnalysis (rev tenQuestions)) = score (calculateAnalysis tenQuestions).
Proof.
  apply (calculateAnalysis_any_order tenQuestions (rev tenQuestions)).
  apply Permutation_rev.
Defined.

(** ** How the actions on questions compose *)

Lemma setQuestions_same st : setQuestions (questions st) st = st.
Proof. now destruct st. Qed.

Lemma setQuestions_twice qs qs' st :
  setQuestions qs (setQuestions qs' st) = setQuestions qs st.
Proof. reflexivity. Qed.

(** An id that no question of the test carries is ignored: [selectAnswer]
    and [checkAnswer] then leave the store exactly as it is, without any
    error. *)
Theorem unknown_id_ignored (questionId a : string) (st : Store) :
  (forall q, In q (questions st) -> id (base q) <> questionId) ->
  selectAnswer questionId a st = st /\ checkAnswer questionId st = st.
Proof.
  intros Hid. unfold selectAnswer, checkAnswer.
  split; rewrite <- (setQuestions_same st) at 3; f_equal;
    rewrite <- (map_id (questions st)) at 2; apply map_ext_in; intros q Hq;
    destruct (String.eqb_spec (id (base q)) questionId) as [E|E];
    try reflexivity; exfalso; exact (Hid q Hq E).
Qed.

Lemma unknown_id_ignored_witness :
  selectAnswer unknownId "A" running3 = running3.
Proof.
  apply (unknown_id_ignored unknownId "A" running3).
  intros q [E|[E|[E|[]]]]; subst q; discriminate.
Defined.

(** On the same question the last [selectAnswer] wins; on different
    questions two [selectAnswer] commute; [checkAnswer] commutes with
    [selectAnswer] and doing it twice is doing it once. *)
Theorem selectAnswer_checkAnswer_compose (i j a b : string) (st : Store) :
  selectAnswer i b (selectAnswer i a st) = selectAnswer i b st /\
  (i <> j ->
     selectAnswer i a (selectAnswer j b st) = selectAnswer j b (selectAnswer i a st)) /\
  checkAnswer j (selectAnswer i a st) = selectAnswer i a (checkAnswer j st) /\
  checkAnswer i (checkAnswer i st) = checkAnswer i st.
Proof.
  unfold selectAnswer, checkAnswer. cbn [questions setQuestions].
  rewrite !setQuestions_twice.
  split; [|split; [|split]]; try intros Hij; f_equal; rewrite !map_map;
    apply map_ext; intros q.
  - destruct (String.eqb (id (base q)) i) eqn:E; simpl; now rewrite E.
  - destruct (String.eqb (id (base q)) i) eqn:E;
      destruct (String.eqb (id (base q)) j) eqn:E'; simpl;
      rewrite ?E, ?E'; try reflexivity.
    apply String.eqb_eq in E, E'. congruence.
  - destruct (String.eqb (id (base q)) i) eqn:E;
      destruct (String.eqb (id (base q)) j) eqn:E'; simpl;
      now rewrite ?E, ?E'.
  - destruct (String.eqb (id (base q)) i) eqn:E; simpl; now rewrite E.
Qed.

(** ** The timer *)

(** One run of the timer's callback submits the test exactly when the
    deadline [startTime + testDurationMinutes * 60000] has been reached, and
    then shows 0.  Before the deadline it leaves the store alone and shows
    the time left in whole seconds, rounded up; that value is positive and
    splits into [minutes] and [seconds] below 60. *)
Theorem timerTick_deadline (now : Z) (st : Store) :
  let deadline := startTime st + testDurationMinutes st * 60000 in
  let t := timerTick now st in
  (deadline <= now ->
     tickStore t = submitTest st /\ tickTimeLeft t = 0 /\ tickCleared t = true) /\
  (now < deadline ->
     tickStore t = st /\ tickCleared t = false /\
     0 < tickTimeLeft t /\
     deadline - now <= 1000 * tickTimeLeft t < deadline - now + 1000) /\
  0 <= tickTimeLeft t /\
  minutes (tickTimeLeft t) * 60 + seconds (tickTimeLeft t) = tickTimeLeft t /\
  0 <= seconds (tickTimeLeft t) < 60.
Proof.
  intros deadline t. subst deadline t. unfold timerTick.
  set (x := now - startTime st).
  pose proof (Z.div_mod x 1000 ltac:(lia)) as Hdm.
  pose proof (Z.mod_pos_bound x 1000 ltac:(lia)) as Hmod.
  assert (Hdisp : forall v, 0 <= v ->
            minutes v * 60 + seconds v = v /\ 0 <= seconds v < 60).
  { intros v Hv. unfold minutes, seconds. rewrite Z.rem_mod_nonneg by lia.
    pose proof (Z.div_mod v 60 ltac:(lia)).
    pose proof (Z.mod_pos_bound v 60 ltac:(lia)). lia. }
  destruct (Z.leb_spec (testDurationMinutes st * 60 - x / 1000) 0) as [Hle|Hgt];
    cbn [tickStore tickTimeLeft tickCleared].
  - split; [intros _; repeat split|]. split; [intros Hlt; exfalso; lia|].
    split; [lia|]. apply Hdisp. lia.
  - split; [intros Hd; exfalso; lia|].
    split; [intros _; repeat split; lia|].
    split; [lia|]. apply Hdisp. lia.
Qed.

(** ** Previous and Next *)

Lemma navigate_to_current st :
  navigateToQuestion (currentQuestionIndex st) st = st.
Proof.
  destruct (navigateToQuestion_cases (currentQuestionIndex st) st) as [[_ E]|[_ E]];
    rewrite E; [now destruct st | reflexivity].
Qed.

(** In every state of the store with questions, Next followed by Previous
    (and Previous followed by Next) comes back to the same state, and the
    buttons are disabled exactly where their handlers would do nothing:
    Next on the last question, Previous on the first. *)
Theorem next_prev_round_trip (st : Store) :
  reachable st ->
  questions st <> [] ->
  (nextDisabled st = false ->
     currentQuestionIndex (handleNext st) = currentQuestionIndex st + 1 /\
     handlePrev (handleNext st) = st) /\
  (nextDisabled st = true -> handleNext st = st) /\
  (prevDisabled st = false ->
     currentQuestionIndex (handlePrev st) = currentQuestionIndex st - 1 /\
     handleNext (handlePrev st) = st) /\
  (prevDisabled st = true -> handlePrev st = st).
Proof.
  intros Hreach Hne.
  pose proof (reachable_indexOk st Hreach) as Hok.
  assert (Hlen : 0 < Z.of_nat (List.length (questions st))).
  { destruct (questions st); [congruence | simpl; lia]. }
  assert (Hcur : 0 <= currentQuestionIndex st < Z.of_nat (List.length (questions st))).
  { destruct Hok as [H0|Hr]; [rewrite H0; lia | exact Hr]. }
  unfold nextDisabled, prevDisabled, handleNext, handlePrev.
  split; [|split; [|split]].
  - intros Hd. apply Z.eqb_neq in Hd.
    destruct (navigateToQuestion_cases (currentQuestionIndex st + 1) st)
      as [[Hin E]|[Hout E]]; [|exfalso; lia].
    rewrite E. cbn [currentQuestionIndex]. split; [reflexivity|].
    rewrite <- E.
    replace (currentQuestionIndex st + 1 - 1) with (currentQuestionIndex st) by lia.
    rewrite E.
    destruct (navigateToQuestion_cases (currentQuestionIndex st)
                {| allQuestions := allQuestions st; questions := questions st;
                   currentQuestionIndex := currentQuestionIndex st + 1;
                   isTestRunning := isTestRunning st; startTime := startTime st;
                   finalResults := finalResults st;
                   testDurationMinutes := testDurationMinutes st |})
      as [[_ E']|[Hout' _]]; [|exfalso; simpl in Hout'; lia].
    rewrite E'. now destruct st.
  - intros Hd. apply Z.eqb_eq in Hd.
    destruct (navigateToQuestion_cases (currentQuestionIndex st + 1) st)
      as [[Hin _]|[_ E]]; [exfalso; lia | exact E].
  - intros Hd. apply Z.eqb_neq in Hd.
    destruct (navigateToQuestion_cases (currentQuestionIndex st - 1) st)
      as [[Hin E]|[Hout E]]; [|exfalso; lia].
    rewrite E. cbn [currentQuestionIndex]. split; [reflexivity|].
    replace (currentQuestionIndex st - 1 + 1) with (currentQuestionIndex st) by lia.
    destruct (navigateToQuestion_cases (currentQuestionIndex st)
                {| allQuestions := allQuestions st; questions := questions st;
                   currentQuestionIndex := currentQuestionIndex st - 1;
                   isTestRunning := isTestRunning st; startTime := startTime st;
                   finalResults := finalResults st;
                   testDurationMinutes := testDurationMinutes st |})
      as [[_ E']|[Hout' _]]; [|exfalso; simpl in Hout'; lia].
    rewrite E'. now destruct st.
  - intros Hd. apply Z.eqb_eq in Hd.
    destruct (navigateToQuestion_cases (currentQuestionIndex st - 1) st)
      as [[Hin _]|[_ E]]; [exfalso; lia | exact E].
Qed.

Lemma next_prev_round_trip_witness :
  handlePrev (handleNext running3) = running3.
Proof.
  apply (next_prev_round_trip running3 running3_reachable).
  - discriminate.
  - reflexivity.
Defined.

(** ** What the user interface keeps true *)

Lemma keeps_refl q : keeps q q.
Proof. unfold keeps. tauto. Qed.

Lemma keeps_trans q1 q2 q3 : keeps q1 q2 -> keeps q2 q3 -> keeps q1 q3.
Proof.
  unfold keeps, answered. intros [Hb [Ha Hs]] [Hb' [Ha' Hs']].
  split; [congruence|]. split.
  - intros H. rewrite <- (Ha H). apply Ha'. now rewrite (Ha H).
  - intros H. now apply Hs', Hs.
Qed.

Lemma Forall2_keeps_refl qs : Forall2 keeps qs qs.
Proof. induction qs; constructor; [apply keeps_refl | assumption]. Qed.

Lemma Forall2_keeps_trans l1 : forall l2 l3,
  Forall2 keeps l1 l2 -> Forall2 keeps l2 l3 -> Forall2 keeps l1 l3.
Proof.
  induction l1 as [|x l1 IH]; intros l2 l3 H12 H23;
    inversion H12; subst; inversion H23; subst; constructor.
  - eapply keeps_trans; eassumption.
  - eapply IH; eassumption.
Qed.

Lemma Forall2_map_pointwise (R : SessionQuestion -> SessionQuestion -> Prop) f l :
  (forall x, In x l -> R x (f x)) -> Forall2 R l (map f l).
Proof.
  induction l as [|x l IH]; intros H; simpl; constructor.
  - apply H. now left.
  - apply IH. intros y Hy. apply H. now right.
Qed.

Lemma currentQuestion_In st q : currentQuestion st = Some q -> In q (questions st).
Proof.
  unfold currentQuestion. destruct (0 <=? currentQuestionIndex st); [|discriminate].
  apply nth_error_In.
Qed.

Lemma handleFileChange_questions file st :
  questions (fst (handleFileChange file st)) = questions st /\
  isTestRunning (fst (handleFileChange file st)) = isTestRunning st.
Proof.
  unfold handleFileChange. destruct file as [f|]; [|now split].
  destruct (String.eqb (mimeType f) "application/json"); [|now split].
  destruct (content f) as [| |qs]; try now split.
  destruct (0 <? Z.of_nat (List.length qs)); now split.
Qed.

Lemma timerTick_questions now st :
  questions (tickStore (timerTick now st)) = questions st.
Proof.
  unfold timerTick.
  now destruct (testDurationMinutes st * 60 - (now - startTime st) / 1000 <=? 0).
Qed.

Lemma navigateToQuestion_questions index st :
  questions (navigateToQuestion index st) = questions st /\
  isTestRunning (navigateToQuestion index st) = isTestRunning st.
Proof.
  destruct (navigateToQuestion_cases index st) as [[_ E]|[_ E]]; rewrite E; now split.
Qed.

Lemma quizStep_keeps st st' :
  synced (questions st) -> quizStep st st' ->
  Forall2 keeps (questions st) (questions st').
Proof.
  intros Hsync Hstep.
  destruct Hstep as [file st | q option st Hcur | q st Hcur Hvis
                    | index st | st | now st].
  - destruct (handleFileChange_questions file st) as [E _]. rewrite E.
    apply Forall2_keeps_refl.
  - unfold handleSelectAnswer.
    destruct (truthy (userAnswer q)) eqn:Hq; [apply Forall2_keeps_refl|].
    rewrite selectAnswer_questions. apply Forall2_map_pointwise.
    intros x Hx. destruct (String.eqb_spec (id (base x)) (id (base q))) as [E|E];
      [|apply keeps_refl].
    apply currentQuestion_In in Hcur.
    destruct (Hsync x q Hx Hcur E) as [Hua _].
    unfold keeps, answered. simpl. rewrite Hua, Hq.
    split; [reflexivity|]. split; [discriminate | tauto].
  - unfold checkAnswer. cbn [questions setQuestions].
    apply Forall2_map_pointwise. intros x Hx.
    destruct (String.eqb (id (base x)) (id (base q))); [|apply keeps_refl].
    unfold keeps. simpl. tauto.
  - destruct (navigateToQuestion_questions index st) as [E _]. rewrite E.
    apply Forall2_keeps_refl.
  - apply Forall2_keeps_refl.
  - rewrite timerTick_questions. apply Forall2_keeps_refl.
Qed.

Lemma quizStep_synced st st' :
  synced (questions st) -> quizStep st st' -> synced (questions st').
Proof.
  intros Hsync Hstep.
  destruct Hstep as [file st | q option st Hcur | q st Hcur Hvis
                    | index st | st | now st].
  - now destruct (handleFileChange_questions file st) as [-> _].
  - unfold handleSelectAnswer.
    destruct (truthy (userAnswer q)); [assumption|].
    rewrite selectAnswer_questions. intros q1 q2 H1 H2 Hid.
    apply in_map_iff in H1. destruct H1 as [x1 [E1 Hx1]].
    apply in_map_iff in H2. destruct H2 as [x2 [E2 Hx2]].
    assert (Hid' : id (base x1) = id (base x2)).
    { subst q1 q2.
      destruct (String.eqb (id (base x1)) (id (base q)));
        destruct (String.eqb (id (base x2)) (id (base q))); exact Hid. }
    destruct (Hsync x1 x2 Hx1 Hx2 Hid') as [Hua Hsh].
    subst q1 q2. rewrite <- Hid'.
    destruct (String.eqb (id (base x1)) (id (base q))); simpl; now split.
  - unfold checkAnswer. cbn [questions setQuestions]. intros q1 q2 H1 H2 Hid.
    apply in_map_iff in H1. destruct H1 as [x1 [E1 Hx1]].
    apply in_map_iff in H2. destruct H2 as [x2 [E2 Hx2]].
    assert (Hid' : id (base x1) = id (base x2)).
    { subst q1 q2.
      destruct (String.eqb (id (base x1)) (id (base q)));
        destruct (String.eqb (id (base x2)) (id (base q))); exact Hid. }
    destruct (Hsync x1 x2 Hx1 Hx2 Hid') as [Hua Hsh].
    subst q1 q2. rewrite <- Hid'.
    destruct (String.eqb (id (base x1)) (id (base q))); simpl; now split.
  - now destruct (navigateToQuestion_questions index st) as [-> _].
  - assumption.
  - now rewrite timerTick_questions.
Qed.

Lemma quizStep_revealedAnswered st st' :
  synced (questions st) -> revealedAnswered (questions st) ->
  quizStep st st' -> revealedAnswered (questions st').
Proof.
  intros Hsync Hrev Hstep.
  destruct Hstep as [file st | q option st Hcur | q st Hcur Hvis
                    | index st | st | now st].
  - now destruct (handleFileChange_questions file st) as [-> _].
  - unfold handleSelectAnswer.
    destruct (truthy (userAnswer q)) eqn:Hq; [assumption|].
    rewrite selectAnswer_questions. intros q' H' Hshown.
    apply in_map_iff in H'. destruct H' as [x [E Hx]].
    apply currentQuestion_In in Hcur.
    destruct (String.eqb_spec (id (base x)) (id (base q))) as [Eid|Eid]; subst q'.
    + simpl in Hshown. pose proof (Hrev x Hx Hshown) as Hans.
      destruct (Hsync x q Hx Hcur Eid) as [Hua _]. congruence.
    + now apply Hrev.
  - unfold checkAnswer. cbn [questions setQuestions]. intros q' H' Hshown.
    apply in_map_iff in H'. destruct H' as [x [E Hx]].
    apply currentQuestion_In in Hcur.
    unfold checkVisible in Hvis. apply andb_true_iff in Hvis. destruct Hvis as [Hq _].
    destruct (String.eqb_spec (id (base x)) (id (base q))) as [Eid|Eid]; subst q'.
    + simpl. destruct (Hsync x q Hx Hcur Eid) as [Hua _]. now rewrite Hua.
    + now apply Hrev.
  - now destruct (navigateToQuestion_questions index st) as [-> _].
  - assumption.
  - now rewrite timerTick_questions.
Qed.

Lemma fresh_synced l : synced (map freshQuestion l) /\ revealedAnswered (map freshQuestion l).
Proof.
  split.
  - intros q1 q2 H1 H2 _. apply in_map_iff in H1, H2.
    destruct H1 as [x1 [<- _]], H2 as [x2 [<- _]]. now split.
  - intros q H Hs. apply in_map_iff in H. destruct H as [x [<- _]]. discriminate.
Qed.

Lemma maxQuestions_homeConfig quizType selectedSubject selectedPaper n n' st :
  maxQuestions (homeConfig quizType selectedSubject selectedPaper n) st =
  maxQuestions (homeConfig quizType selectedSubject selectedPaper n') st.
Proof.
  unfold maxQuestions, homeConfig, filterQuestions, isSubject, isPaper.
  destruct (String.eqb quizType "subject"); [reflexivity|].
  now destruct (String.eqb quizType "paper").
Qed.

Lemma startQuiz_length_enabled sortRandom now config st :
  (forall l, Permutation l (sortRandom l)) ->
  1 <= count config ->
  startDisabled config st = false ->
  Z.of_nat (List.length (questions (startQuiz sortRandom now config st)))
    = Z.min (count config) (maxQuestions config st) /\
  1 <= maxQuestions config st.
Proof.
  intros Hperm Hcount Hdis. unfold startDisabled in Hdis.
  apply orb_false_iff in Hdis. destruct Hdis as [_ Hmax].
  apply Z.eqb_neq in Hmax. unfold maxQuestions in *.
  split; [|lia].
  unfold startQuiz. cbn [questions].
  rewrite length_map, slice0_length by lia.
  now rewrite <- (Permutation_length (Hperm _)).
Qed.

Lemma uiReachable_invariant st :
  uiReachable st ->
  synced (questions st) /\ revealedAnswered (questions st) /\
  (isTestRunning st = true -> questions st <> []).
Proof.
  induction 1 as [ | st st' _ [Hs [Hr Hn]] Hstep
                 | sr now qt ss sp n st Hperm Hn1 Hdis _ _
                 | st _ _ ].
  - split; [|split]; [intros q1 q2 [] | intros q [] | discriminate].
  - split; [eapply quizStep_synced; eassumption|].
    split; [eapply quizStep_revealedAnswered; eassumption|].
    destruct Hstep as [file st | q option st Hcur | q st Hcur Hvis
                      | index st | st | now st].
    + now destruct (handleFileChange_questions file st) as [-> ->].
    + unfold handleSelectAnswer. destruct (truthy (userAnswer q)); [assumption|].
      rewrite selectAnswer_questions. simpl. intros Hrun E.
      apply map_eq_nil in E. now apply Hn.
    + unfold checkAnswer. simpl. intros Hrun E.
      apply map_eq_nil in E. now apply Hn.
    + now destruct (navigateToQuestion_questions index st) as [-> ->].
    + discriminate.
    + unfold timerTick.
      destruct (testDurationMinutes st * 60 - (now - startTime st) / 1000 <=? 0);
        [discriminate | assumption].
  - unfold handleStartQuiz.
    destruct (fresh_synced (slice0 (sr (filterQuestions (homeConfig qt ss sp n) (allQuestions st))) n))
      as [Hs Hr].
    assert (Hcount : count (homeConfig qt ss sp n) = n).
    { unfold homeConfig. destruct (String.eqb qt "subject"); [reflexivity|].
      now destruct (String.eqb qt "paper"). }
    split; [|split].
    + unfold startQuiz. cbn [questions]. now rewrite Hcount.
    + unfold startQuiz. cbn [questions]. now rewrite Hcount.
    + intros _ E.
      destruct (startQuiz_length_enabled sr now (homeConfig qt ss sp n) st Hperm
                  ltac:(rewrite Hcount; exact Hn1) Hdis) as [Hlen Hmax].
      rewrite E in Hlen. simpl in Hlen. lia.
  - split; [|split]; [intros q1 q2 [] | intros q [] | discriminate].
Qed.

Lemma uiReachable_reachable st : uiReachable st -> reachable st.
Proof.
  induction 1 as [ | st st' _ IH Hstep
                 | sr now qt ss sp n st Hperm _ _ _ IH
                 | st _ IH ].
  - constructor.
  - destruct Hstep as [file st | q option st Hcur | q st Hcur Hvis
                      | index st | st | now st].
    + unfold handleFileChange. destruct file as [f|]; [|assumption].
      destruct (String.eqb (mimeType f) "application/json"); [|assumption].
      destruct (content f) as [| |qs]; try assumption.
      destruct (0 <? Z.of_nat (List.length qs)); [now constructor | assumption].
    + unfold handleSelectAnswer. destruct (truthy (userAnswer q));
        [assumption | now constructor].
    + now constructor.
    + now constructor.
    + now constructor.
    + unfold timerTick.
      destruct (testDurationMinutes st * 60 - (now - startTime st) / 1000 <=? 0);
        [now constructor | assumption].
  - unfold handleStartQuiz. now constructor.
  - unfold handleGoHome. now constructor.
Qed.

Lemma quizSteps_uiReachable st st' :
  uiReachable st -> quizSteps st st' -> uiReachable st'.
Proof.
  intros Hui Hsteps. induction Hsteps as [|st st' st'' _ IH Hstep]; [assumption|].
  eapply ui_quiz; [apply IH; assumption | exact Hstep].
Qed.

Lemma running3_uiReachable : uiReachable running3.
Proof.
  unfold running3.
  eapply ui_quiz; [|apply qs_navigate].
  change (uiReachable
            (handleStartQuiz keepOrder 1000 "all" "" "" 3
               (fst (handleFileChange (jsonFile bank3) initialStore)))).
  apply ui_start.
  - intros l. apply Permutation_refl.
  - lia.
  - reflexivity.
  - eapply ui_quiz; [apply ui_init | apply qs_file].
Qed.

(** Through the user interface the first answer is final.  From a state
    the interface can reach, whatever is done on the quiz page (options
    clicked, answers checked, moving about, submitting, the timer, a file
    loaded meanwhile) leaves the test with the same questions in the same
    order, every answer that was given as it was given, and every revealed
    answer revealed. *)
Theorem answers_final (st st' : Store) :
  uiReachable st ->
  quizSteps st st' ->
  Forall2 keeps (questions st) (questions st') /\
  map base (questions st') = map base (questions st).
Proof.
  intros Hui Hsteps.
  assert (HF : Forall2 keeps (questions st) (questions st')).
  { induction Hsteps as [|st st' st'' Hsteps IH Hstep];
      [apply Forall2_keeps_refl|].
    eapply Forall2_keeps_trans; [apply IH; assumption|].
    apply quizStep_keeps; [|exact Hstep].
    apply uiReachable_invariant. eapply quizSteps_uiReachable; eassumption. }
  split; [exact HF|].
  clear Hui Hsteps. induction HF as [|q q' l l' [Hb _] _ IH]; simpl;
    [reflexivity | now rewrite Hb, IH].
Qed.

Lemma answers_final_witness :
  let q1 := freshQuestion (mkQuestion "q1" (Some "Options")) in
  let st1 := handleSelectAnswer q1 "A" (navigateToQuestion 0 running3) in
  let st2 := handleSelectAnswer (withAnswer "A" q1) "B" st1 in
  map userAnswer (questions st1) = [Some "A"; None; None] /\
  Forall2 keeps (questions st1) (questions st2).
Proof.
  intros q1 st1 st2. split; [reflexivity|].
  assert (Hui : uiReachable st1).
  { eapply ui_quiz; [eapply ui_quiz; [apply running3_uiReachable | apply qs_navigate]|].
    apply qs_select. reflexivity. }
  apply (answers_final st1 st2 Hui).
  eapply qss_step; [apply qss_refl|]. apply qs_select. reflexivity.
Defined.

(** In every state the interface can reach, the palette agrees with the
    scoring: a green button is a revealed question counted as right, a red
    one a revealed question counted as wrong, a blue one an answered
    question not yet revealed, a gray one a question with no answer. *)
Theorem palette_agrees_with_scoring (st : Store) (q : SessionQuestion) :
  uiReachable st ->
  In q (questions st) ->
  (getStatusColor q = "bg-green-500 text-white" <->
     showAnswer q = true /\ isCorrect q = true) /\
  (getStatusColor q = "bg-red-500 text-white" <->
     showAnswer q = true /\ isIncorrect q = true) /\
  (getStatusColor q = "bg-blue-500 text-white" <->
     showAnswer q = false /\ answered q = true) /\
  (getStatusColor q = "bg-gray-200 text-gray-700" <->
     showAnswer q = false /\ answered q = false).
Proof.
  intros Hui HIn.
  destruct (uiReachable_invariant st Hui) as [_ [Hrev _]].
  specialize (Hrev q HIn).
  unfold getStatusColor, isCorrect, isIncorrect, answered.
  destruct (showAnswer q).
  - rewrite (Hrev eq_refl).
    destruct (strictEq (userAnswer q) (Some (answer (base q)))); simpl;
      repeat split; try discriminate; try tauto;
      intros [H1 H2]; discriminate.
  - destruct (truthy (userAnswer q)); simpl;
      repeat split; try discriminate; try tauto;
      intros [H1 H2]; discriminate.
Qed.

Lemma palette_agrees_with_scoring_witness :
  getStatusColor (freshQuestion (mkQuestion "q2" (Some "Futures")))
    = "bg-gray-200 text-gray-700".
Proof.
  apply (palette_agrees_with_scoring running3
           (freshQuestion (mkQuestion "q2" (Some "Futures")))
           running3_uiReachable).
  - right. left. reflexivity.
  - split; reflexivity.
Defined.

(** While a test started from the home page is running, the quiz page has
    a question to show: [questions] is not empty and
    [questions[currentQuestionIndex]] is one of its elements. *)
Theorem running_shows_question (st : Store) :
  uiReachable st ->
  isTestRunning st = true ->
  questions st <> [] /\
  showsQuestion st = true /\
  exists q, currentQuestion st = Some q /\ In q (questions st).
Proof.
  intros Hui Hrun.
  destruct (uiReachable_invariant st Hui) as [_ [_ Hne]].
  specialize (Hne Hrun).
  pose proof (reachable_indexOk st (uiReachable_reachable st Hui)) as Hok.
  assert (Hlen : 0 < Z.of_nat (List.length (questions st))).
  { destruct (questions st); [congruence | simpl; lia]. }
  assert (Hcur : 0 <= currentQuestionIndex st < Z.of_nat (List.length (questions st))).
  { destruct Hok as [H0|Hr]; [rewrite H0; lia | exact Hr]. }
  assert (Hq : exists q, currentQuestion st = Some q).
  { unfold currentQuestion.
    destruct (Z.leb_spec 0 (currentQuestionIndex st)) as [_|H]; [|lia].
    destruct (nth_error (questions st) (Z.to_nat (currentQuestionIndex st))) eqn:E;
      [now eexists|].
    apply nth_error_None in E. lia. }
  destruct Hq as [q Hq].
  split; [exact Hne|]. split.
  - unfold showsQuestion. now rewrite Hrun, Hq.
  - exists q. split; [exact Hq | now apply currentQuestion_In].
Qed.

Lemma running_shows_question_witness : showsQuestion running3 = true.
Proof.
  apply (running_shows_question running3 running3_uiReachable).
  reflexivity.
Defined.

(** The quiz page stays exactly while the test runs: in every state of the
    store its effect leaves the page on [quiz] when [isTestRunning] holds,
    sends it to [results] when there is a report and [home] otherwise; so
    submitting leads to the results and "Take Another Test" leads home. *)
Theorem quizPage_flow (st : Store) :
  reachable st ->
  (quizPageEffect st quiz = quiz <-> isTestRunning st = true) /\
  (quizPageEffect st quiz = results <-> hasResults st = true) /\
  (quizPageEffect st quiz = home <->
     isTestRunning st = false /\ hasResults st = false) /\
  quizPageEffect (submitTest st) quiz = results /\
  resultsPageEffect (handleGoHome st) results = home.
Proof.
  intros Hreach.
  pose proof (running_excludes_results st Hreach) as Hinv.
  unfold quizPageEffect, resultsPageEffect, hasResults, handleGoHome. simpl.
  destruct (isTestRunning st); [rewrite (Hinv eq_refl) | destruct (finalResults st)];
    simpl; repeat split; try discriminate; try tauto;
    intros [H1 H2]; discriminate.
Qed.

Lemma quizPage_flow_witness : quizPageEffect running3 quiz = quiz.
Proof.
  apply (quizPage_flow running3 running3_reachable). reflexivity.
Defined.

(** ** The home page *)







Lemma count_homeConfig quizType selectedSubject selectedPaper n :
  count (homeConfig quizType selectedSubject selectedPaper n) = n.
Proof.
  unfold homeConfig. destruct (String.eqb quizType "subject"); [reflexivity|].
  now destruct (String.eqb quizType "paper").
Qed.

(** A test started from the home page has exactly the number of questions
    the page shows: with the slider at [numQuestions >= 1], brought down to
    [maxQuestions] by the page's effect, and the start button enabled,
    [handleStartQuiz] gives a running test of [min(numQuestions,
    maxQuestions)] questions, none answered, lasting
    [ceil(1.2 * that number)] minutes. *)
Theorem handleStartQuiz_exact
    (sortRandom : list Question -> list Question) (now : Z)
    (quizType selectedSubject selectedPaper : string) (numQuestions : Z)
    (st : Store) :
  (forall l, Permutation l (sortRandom l)) ->
  1 <= numQuestions ->
  let maxQ := maxQuestions
                (homeConfig quizType selectedSubject selectedPaper numQuestions) st in
  let n := clampNumQuestions numQuestions maxQ in
  startDisabled (homeConfig quizType selectedSubject selectedPaper n) st = false ->
  let st' := handleStartQuiz sortRandom now quizType selectedSubject selectedPaper n st in
  n = Z.min numQuestions maxQ /\
  Z.of_nat (List.length (questions st')) = n /\
  isTestRunning st' = true /\
  (forall q, In q (questions st') -> userAnswer q = None /\ showAnswer q = false) /\
  testDurationMinutes st' = (6 * n + 4) / 5.
Proof.
  intros Hperm Hn maxQ n Hdis st'.
  assert (Hmax : maxQuestions (homeConfig quizType selectedSubject selectedPaper n) st = maxQ).
  { apply maxQuestions_homeConfig. }
  assert (Hpos : 1 <= maxQ).
  { unfold startDisabled in Hdis. apply orb_false_iff in Hdis.
    destruct Hdis as [_ H]. apply Z.eqb_neq in H. rewrite Hmax in H.
    unfold maxQ, maxQuestions in *. lia. }
  assert (Hclamp : n = Z.min numQuestions maxQ).
  { unfold n, clampNumQuestions.
    destruct (Z.ltb_spec maxQ numQuestions); [|lia].
    destruct (Z.eqb_spec maxQ 0); lia. }
  split; [exact Hclamp|].
  assert (Hcount : 1 <= count (homeConfig quizType selectedSubject selectedPaper n)).
  { rewrite count_homeConfig. lia. }
  destruct (startQuiz_length_enabled sortRandom now _ st Hperm Hcount Hdis) as [Hlen _].
  split.
  { subst st'. unfold handleStartQuiz. rewrite Hlen, count_homeConfig, Hmax. lia. }
  split; [reflexivity|]. split.
  - intros q Hq. subst st'. unfold handleStartQuiz, startQuiz in Hq. simpl in Hq.
    apply in_map_iff in Hq. destruct Hq as [x [<- _]]. now split.
  - subst st'. unfold handleStartQuiz, startQuiz. cbn [testDurationMinutes].
    now rewrite duration_closed_form, count_homeConfig.
Qed.

Lemma handleStartQuiz_exact_witness :
  Z.of_nat (List.length (questions
    (handleStartQuiz keepOrder 1000 "subject" "Options" "" 3
       (loadQuestions bank4 initialStore)))) = 3.
Proof.
  apply (handleStartQuiz_exact keepOrder 1000 "subject" "Options" "" 10
           (loadQuestions bank4 initialStore) (fun l => Permutation_refl l)).
  - lia.
  - reflexivity.
Defined.

Lemma startQuiz_bank_witness :
  Permutation bank4
    (allQuestions (startQuiz (@rev Question) 1000
                     {| type := "all"; value := None; count := 2 |}
                     (loadQuestions bank4 initialStore))).
Proof.
  apply (startQuiz_bank (@rev Question) 1000
           {| type := "all"; value := None; count := 2 |}
           (loadQuestions bank4 initialStore)).
  intros l. apply Permutation_rev.
Defined.

(** With a count that is not positive [startQuiz] still starts a test:
    count 0 gives no question, a negative count gives all matching questions
    but the last [-count] of the shuffled list ([slice(0, count)]); the
    duration is then 0 or less, so the first run of the timer submits. *)
Theorem startQuiz_nonpositive_count
    (sortRandom : list Question -> list Question) (now : Z)
    (config : Config) (st : Store) :
  (forall l, Permutation l (sortRandom l)) ->
  count config <= 0 ->
  let filtered := filterQuestions config (allQuestions st) in
  let st' := startQuiz sortRandom now config st in
  isTestRunning st' = true /\
  (count config = 0 -> questions st' = []) /\
  (count config < 0 ->
     Z.of_nat (List.length (questions st'))
       = Z.max (Z.of_nat (List.length filtered) + count config) 0) /\
  testDurationMinutes st' <= 0 /\
  (forall later, now <= later -> tickStore (timerTick later st') = submitTest st').
Proof.
  intros Hperm Hcount filtered st'.
  split; [reflexivity|].
  assert (Hlen : Z.of_nat (List.length (questions st'))
                 = if count config <? 0
                   then Z.max (Z.of_nat (List.length filtered) + count config) 0
                   else 0).
  { subst st'. unfold startQuiz. cbn [questions]. fold filtered.
    rewrite length_map. unfold slice0.
    rewrite length_firstn, <- !(Permutation_length (Hperm filtered)).
    destruct (Z.ltb_spec (count config) 0); lia. }
  split.
  { intros H0. rewrite H0 in Hlen. destruct (questions st'); [reflexivity|].
    simpl in Hlen. lia. }
  split.
  { intros Hneg. rewrite Hlen. destruct (Z.ltb_spec (count config) 0); lia. }
  assert (Hd : testDurationMinutes st' <= 0).
  { subst st'. unfold startQuiz. cbn [testDurationMinutes].
    rewrite duration_closed_form.
    pose proof (Z.div_mod (6 * count config + 4) 5 ltac:(lia)).
    pose proof (Z.mod_pos_bound (6 * count config + 4) 5 ltac:(lia)). lia. }
  split; [exact Hd|].
  intros later Hlater. unfold timerTick.
  assert (Hs : startTime st' = now) by reflexivity. rewrite Hs.
  pose proof (Z.div_mod (later - now) 1000 ltac:(lia)).
  pose proof (Z.mod_pos_bound (later - now) 1000 ltac:(lia)).
  destruct (Z.leb_spec (testDurationMinutes st' * 60 - (later - now) / 1000) 0);
    [reflexivity | lia].
Qed.

Lemma startQuiz_nonpositive_count_witness :
  Z.of_nat (List.length (questions
    (startQuiz keepOrder 1000 {| type := "all"; value := None; count := -1 |}
       (loadQuestions bank4 initialStore)))) = 3.
Proof.
  apply (startQuiz_nonpositive_count keepOrder 1000
           {| type := "all"; value := None; count := -1 |}
           (loadQuestions bank4 initialStore) (fun l => Permutation_refl l));
    simpl; lia.
Defined.

(** ** The card and the palette *)

(** The card and the palette tell the same story.  For a question answered
    with one of its options: once revealed, the options bordered green are
    exactly those equal to the answer, and some option is bordered red
    exactly when the palette button is red; before that, the option
    bordered blue is the chosen one and none is green or red. *)
Theorem card_matches_palette (q : SessionQuestion) (a : string) :
  userAnswer q = Some a ->
  In a (options (base q)) ->
  (showAnswer q = true ->
     (forall o, borderColor q o = "border-green-500 bg-green-50"
                <-> o = answer (base q)) /\
     ((exists o, In o (options (base q)) /\
                 borderColor q o = "border-red-500 bg-red-50")
      <-> getStatusColor q = "bg-red-500 text-white")) /\
  (showAnswer q = false ->
     forall o, (borderColor q o = "border-blue-500 bg-blue-50" <-> o = a) /\
               borderColor q o <> "border-green-500 bg-green-50" /\
               borderColor q o <> "border-red-500 bg-red-50").
Proof.
  intros Hua HIn. unfold borderColor, getStatusColor. rewrite Hua.
  cbn [strictEq]. split; intros Hshow; rewrite Hshow.
  - split.
    + intros o. destruct (String.eqb_spec (answer (base q)) o) as [E|E].
      * split; [intros _; now symmetry | reflexivity].
      * split; [|intros E'; now subst o].
        destruct (String.eqb a o); discriminate.
    + destruct (String.eqb_spec a (answer (base q))) as [E|E].
      * split; [|discriminate]. intros [o [_ Ho]].
        destruct (String.eqb_spec (answer (base q)) o) as [E1|E1]; [discriminate|].
        destruct (String.eqb_spec a o) as [E2|E2]; [congruence | discriminate].
      * split; [reflexivity|]. intros _. exists a. split; [exact HIn|].
        destruct (String.eqb_spec (answer (base q)) a) as [E1|E1]; [congruence|].
        now rewrite String.eqb_refl.
  - intros o. destruct (String.eqb_spec a o) as [E|E].
    + repeat split; try discriminate. now symmetry.
    + repeat split; try discriminate. intros E'. now subst o.
Qed.

Lemma card_matches_palette_witness :
  borderColor (withShown (mkSession "q1" (Some "Options") (Some "B"))) "A"
    = "border-green-500 bg-green-50".
Proof.
  apply (card_matches_palette (withShown (mkSession "q1" (Some "Options") (Some "B"))) "B").
  - reflexivity.
  - right. left. reflexivity.
  - reflexivity.
  - reflexivity.
Defined.

(** ** A category that is a name objects inherit *)

(** An answered question whose category is "toString" is counted in the
    score and gets no bucket. *)
Example topicAnalysis_inherited_name :
  let r := calculateAnalysis [ mkSession "q1" (Some "toString") (Some "A") ] in
  correctCount r = 1 /\ topicAnalysis r = [].
Proof. split; reflexivity. Qed.
